(* ===== verification/_CoqProject ===== *)
-Q . S2P
Prelude.v
Messages.v
Router.v
Agents.v
Prompts.v
Controller.v
Workflow.v
Checkpoint.v
Invariants.v
Loaders.v
App.v
