(* ===== verification/Prelude.v ===== *)
(** * A verification development for Resume_Parser_Agent

    The repository is a resume-parsing pipeline written in Python on top of
    LangGraph and LangChain.  A Streamlit page ([src/main.py]) uploads a
    PDF or DOCX file, extracts its text ([src/loaders.py]) and streams it
    through a LangGraph state graph ([src/workflow.py]) whose three nodes
    are language-model agents: a reader that normalises the text
    ([src/reader_agent.py]), an extractor that produces structured data
    ([src/extractor_agent.py]) and a validator that answers the literal
    ["Yes"] or a list of corrections ([src/validator_agent.py]).  The
    function [router] of [src/workflow.py] decides after every node which
    node runs next, from the shared [AgentState] = {messages, sender,
    count}.

    ** Files, in dependency order

    - [Prelude] (this file): the Python exceptions the program raises or
      lets through ([error]), a result monad [result] with stdpp's
      [MRet]/[MBind]/[FMap] instances, the scope [pipeline_scope], the
      hint database [pipeline] and the tactic [result_inv], and generic
      lemmas on results and lists.
    - [Messages]: LangChain messages ([message]: content and optional id),
      the [AgentState] TypedDict as a record whose optional fields are the
      keys a TypedDict may lack, and LangGraph's [add_messages] reducer
      (ids assigned from a counter standing for [uuid4], merge by id
      through a [gmap]).  The channel update [apply_update] is how a node's
      returned dict is merged into the state.
    - [Router]: [router] of [src/workflow.py] line for line, with its
      Python exceptions ([IndexError] on an empty history, [KeyError] on a
      missing sender) kept as [Err] values.
    - [Agents]: the language model as a typeclass [LanguageModel] (one
      [invoke] on a request: model name, system prompt, history); the three
      node functions [reader_call], [extractor_call], [validator_call] with
      their system prompts, as one [stage_call] over [stage].
    - [Prompts]: each node's [ChatPromptTemplate] ([chat_template]: its
      system prompt and the human template ["{input}"]) and its formatting
      on [invoke] with [str.format]'s template parser ([scan],
      [format_fstring], [format_messages]).
    - [Controller]: the pipeline controller of the spec (section 4.2) as
      the step relation [ctrl_step] on abstract states (phase, message
      contents, sender, count), its measure [ctrl_measure] and its
      invariant [ctrl_inv]; it is modelled from the spec, not from code.
    - [Workflow]: [create_workflow] as data (nodes, the START edge, the
      three conditional edges with their path maps), LangGraph's
      execution of it in "updates" stream mode as the executable [exec] /
      [stream] bounded by the recursion limit (25, LangGraph's default),
      the same execution as a step relation [gstep] whose model responses
      are arbitrary, and the abstraction [abs] from its configurations to
      the controller's states.
    - [Checkpoint]: the checkpointer [create_workflow] compiles the graph
      with and [main]'s config: the interface [Checkpointer] with its laws
      [CheckpointerLaws], [MemorySaver] as an instance keeping every
      thread's checkpoints, [compiled_workflow] (the value of
      [create_workflow()]), [main_config] (thread ["abc"]), and the run
      with checkpoints [exec_ck] / [stream_ck] that [App] calls: a
      [checkpoint] holds the channel values, the id counter, the
      [__start__] channel and the step; a run saves the input checkpoint,
      the one after the [__start__] task, and one per committed
      superstep.
    - [Invariants]: the typing invariant [state_typed] of the state a
      node receives, the routing and ceiling invariant of reachable
      configurations ([conf_inv], with [node_after]: the router's table
      composed with the path maps) and the spec's state invariants along
      [gstep] runs.
    - [Loaders]: [parse_document] of [src/loaders.py] with
      [os.path.splitext] (posixpath's [_splitext], character for
      character) and [str.lower]; the PDF and DOCX loaders are the
      interface [DocumentLoaders] (constructor and [load], each of which
      may raise).
    - [App]: [src/main.py]: the upload folder and the file system as a
      set of directories and a map of files, [os.path.join] and
      [os.path.dirname], [validate_file_size], [save_uploaded_file],
      [get_contents], [setup_page], the rendering of a streamed chunk, and
      [process] / [main] producing the ordered list of page events (page
      config and title, uploader, button, errors, success banners,
      expanders with their labels); [open(path, "wb")] resolves the path
      through its ancestor directories ([ancestors], [resolve_error]:
      [ENOTDIR], [ENOENT], [EISDIR] as Python reports them); [session]
      is Streamlit's rerun of the script on every interaction, the file
      system carried from run to run.

    ** Program code and library code

    The definitions that translate lines of [src/] are mapped to them in
    the project manifest.  The libraries the program calls are written
    out only as far as the program depends on them, and are not mapped,
    since no line of the repository implements them: LangChain's messages
    and LangGraph's [add_messages] ([Messages]), LangGraph's Pregel loop
    ([exec], [gstep], [branch_target] in [Workflow]) and its checkpoint
    saves ([exec_ck], [stream_ck], [MemorySaver] in [Checkpoint]).  The
    [os.path] and [str] functions are translated from CPython's
    [posixpath] and [str] and are mapped to the line that calls them.

    ** What is proved

    - The state: every configuration a run reaches has all three keys of
      [AgentState], a non-empty history and ids 0..n-1, runs next the
      node the router and the path maps choose for its [sender], and has
      [count] below 3 while running and at most 3 at the end (the
      invariant [reachable_typed], by induction on [gstep] runs); each
      step appends one message, sets
      [sender] to the node that wrote it and increments [count] exactly
      after the extractor; the history only grows and [count] never
      decreases.  (The reducer's own lemmas, append and replace, are in
      [Messages].)
    - The router: its full case table, the priority of the retry ceiling
      over every other test, and that it never raises on a state a node
      has written.
    - The stages: each makes exactly one model call with its own system
      prompt and the whole history, appends one message, sets [sender];
      only the extractor increments [count]; a model failure propagates.
    - The workflow: every run from the program's initial state (count 0)
      emits the senders of a prefix of
      reader, extractor, validator, extractor, validator, extractor: at
      most 6 stage executions, far under the recursion limit, so
      [GraphRecursionError] never happens and, when the model never fails,
      the run always completes.  A run in which the model never answers
      ["Yes"] performs exactly those 6 stages, so the third extraction is
      never validated; the spec's bound of 7 stage calls is not reached.
      A reader answering ["Yes"] ends the run before any extraction.
    - The refinement: a sequence of [k] non-failing steps of the
      LangGraph execution from the initial state maps, through [abs]
      (which forgets message ids), onto [k+1] steps of the spec's
      controller from its initial state (the extra step is Start); the
      controller's measure bounds every run (at most 7 steps), which
      bounds [gstep] runs by 6, and every reachable controller state keeps
      the count at most 3.
    - The prompts: the three system prompts contain no brace, so
      formatting a node's prompt never raises, keeps the system prompt
      verbatim and puts the rendered history in for [{input}]; the
      request a node sends is therefore exactly its system prompt and the
      history.
    - The checkpointer: the saves never change what is streamed; a run
      saves only under its own thread; every click of [main] runs on a
      new saver, so the run is the checkpoint-free [stream]; afterwards
      thread ["abc"] holds, oldest first, the input checkpoint (step -1),
      the checkpoint after [__start__] (step 0) and one per chunk, at
      most 8 in all, the latest being the final state at the step of the
      last chunk; a compiled graph streamed twice on thread ["abc"] would
      start the second run from the first run's whole history.
    - Loading: [parse_document] dispatches on the lower-cased
      extension, rejects others with [ValueError], and wraps errors of
      [load] (not of the constructor) as "Error loading document: ...";
      for an upload named [stem.ext] the extension tested on its saved
      path is ["." + ext] lower-cased, except that a stem of dots only (a
      hidden file such as [".pdf"]) has no extension and is refused.
    - The page: the size check accepts exactly the files of at most
      [MAX_FILE_SIZE] bytes; a saved file lands in [uploaded/] unless its
      name starts with "/"; [get_contents] is the concatenation of the
      pages; [process] shows the success banner, then one expander per
      streamed chunk labelled with the capitalised sender, then the
      completion banner or the error; the labels [main] shows are always
      a prefix of the six-stage schedule; a file that is too large gets
      only the size error; an unsupported type is saved and then refused;
      a regular file named ["uploaded"] makes every save fail with
      [Errno 20], since [ensure_upload_folder] only tests
      [os.path.exists]; over a whole session no file or directory is
      ever removed and, unless a regular file named ["uploaded"] was
      there first, the upload directory exists from the first run on.

    ** Bounds and fuel

    - [exec] recurses on the recursion limit, 25, as LangGraph counts
      supersteps; runs of the program need at most 6 (the count reaches
      3 after three extractions), so the fuel is never exhausted on a run
      from the initial state ([stream_completes]).  The proofs fix the
      limit to LangGraph's default only through that inequality.
    - [nat] stands for Python [int] where values stay tiny (count <= 3,
      list indices); file sizes are [N].

    ** Modelling choices

    - A language-model call is an [invoke] of a [LanguageModel] instance,
      a function of the request.  Within a run every request carries a
      strictly longer history than the previous one, so a function of the
      request can return any sequence of answers: nothing is lost against
      a nondeterministic model.  The step relation [gstep] quantifies over
      the answers directly.
    - [uuid4] is a counter: ids are fresh by construction.
    - Python [int] is [nat] (counts never exceed 3 here); Python [str] is
      Rocq [string]; [str.lower] is ASCII lower-casing.
    - [RemoveMessage] handling inside [add_messages] is not modelled: the
      program never creates one.  A checkpoint stores the id counter next
      to the channel values, which keeps ids fresh across runs of a thread.
    - Streamlit widgets are page events ([UIUploader], [UIButton]); the
      file the uploader returns and the button's state are inputs of
      [main].  The uploader's [type=['pdf', 'docx']] filter is not
      modelled: [main] accepts any upload, and [parse_document] is what
      rejects other extensions.
    - Not modelled: the spinner and the expanders' styling (no content);
      the PDF/DOCX parsers themselves (the interface [DocumentLoaders]);
      the HTTP transport and streaming of the OpenAI client; the
      module-level [llm = ChatOpenAI(model="gpt-4o-mini", streaming=True)]
      of [main.py], which nothing uses; the text [str] makes of the
      history list for [{input}] (the request carries the history itself;
      [node_prompt_format] holds for any rendering). *)

From stdpp Require Import base list strings gmap.
From Stdlib Require Import Lia.

(** ** Errors: the Python exceptions of the program *)

Inductive error : Type :=
| ModelCallError (detail : string)
    (** any exception raised by [ChatOpenAI.invoke] *)
| ValueError (msg : string)
    (** [raise ValueError(...)], [loaders.py] line 27 *)
| LoadException (msg : string)
    (** [raise Exception(f"Error loading document: ...")], [loaders.py] line 32 *)
| KeyError (key : string)
    (** a missing dict key *)
| IndexError (msg : string)
    (** [list[-1]] on an empty list *)
| GraphRecursionError
    (** LangGraph's superstep limit exceeded *)
| OSError (msg : string)
    (** a failing [open] or [os.makedirs] *).

#[global] Instance error_eq_dec : EqDecision error.
Proof. solve_decision. Qed.

(** [str(e)] of an exception, as [main] displays it. *)
Definition error_message (e : error) : string :=
  match e with
  | ModelCallError d => d
  | ValueError m => m
  | LoadException m => m
  | KeyError k => "'" +:+ k +:+ "'"
  | IndexError m => m
  | GraphRecursionError => "Recursion limit of 25 reached without hitting a stop condition."
  | OSError m => m
  end%string.

(** ** The result monad *)

Inductive result (A : Type) : Type :=
| Ok (a : A)
| Err (e : error).
Arguments Ok {A} a.
Arguments Err {A} e.

#[global] Instance result_ret : MRet result := λ A a, Ok a.
#[global] Instance result_bind : MBind result :=
  λ A B f m, match m with Ok a => f a | Err e => Err e end.
#[global] Instance result_fmap : FMap result :=
  λ A B f m, match m with Ok a => Ok (f a) | Err e => Err e end.

Definition of_option {A} (e : error) (o : option A) : result A :=
  match o with Some a => Ok a | None => Err e end.

Definition is_ok {A} (r : result A) : bool :=
  match r with Ok _ => true | Err _ => false end.

Declare Scope pipeline_scope.
Delimit Scope pipeline_scope with pipe.
Notation "'raise' e" := (Err e) (at level 10, e at level 9) : pipeline_scope.
Notation "o '!?' e" := (of_option e o) (at level 25, left associativity) : pipeline_scope.
Open Scope pipeline_scope.

(** ** Generic lemmas on results *)

Create HintDb pipeline.
Create Rewrite HintDb pipeline_rw.

Lemma bind_Ok {A B} (a : A) (f : A → result B) : (Ok a ≫= f) = f a.
Proof. reflexivity. Qed.

Lemma bind_Err {A B} (e : error) (f : A → result B) : (Err e ≫= f) = Err e.
Proof. reflexivity. Qed.

Lemma bind_Ok_inv {A B} (m : result A) (f : A → result B) b :
  (m ≫= f) = Ok b → ∃ a, m = Ok a ∧ f a = Ok b.
Proof. destruct m; simpl; [eauto | discriminate]. Qed.

Lemma bind_Err_inv {A B} (m : result A) (f : A → result B) e :
  (m ≫= f) = Err e → m = Err e ∨ ∃ a, m = Ok a ∧ f a = Err e.
Proof. destruct m; simpl; [eauto | intros [= ->]; auto]. Qed.

Lemma fmap_Ok_inv {A B} (f : A → B) (m : result A) b :
  (f <$> m) = Ok b → ∃ a, m = Ok a ∧ b = f a.
Proof. destruct m; simpl; [intros [= <-]; eauto | discriminate]. Qed.

Lemma of_option_Ok {A} e (o : option A) a : (o !? e) = Ok a ↔ o = Some a.
Proof. destruct o; simpl; split; congruence. Qed.

#[export] Hint Rewrite @bind_Ok @bind_Err : pipeline_rw.

(** [result_inv] decomposes hypotheses [m ≫= f = Ok b] and equalities
    between result constructors. *)
Ltac result_inv :=
  repeat match goal with
  | H : Ok _ = Ok _ |- _ => injection H as H
  | H : Ok _ = Err _ |- _ => discriminate H
  | H : Err _ = Ok _ |- _ => discriminate H
  | H : Err _ = Err _ |- _ => injection H as H
  | H : (_ ≫= _) = Ok _ |- _ =>
      let a := fresh "a" in let Ha := fresh "Ha" in
      apply bind_Ok_inv in H as (a & Ha & H)
  | H : (_ <$> _) = Ok _ |- _ =>
      let a := fresh "a" in let Ha := fresh "Ha" in
      apply fmap_Ok_inv in H as (a & Ha & H)
  end; simplify_eq.

(** ** Generic lemmas on lists *)

Lemma prefix_cons_inv {A} (x y : A) l k : x :: l `prefix_of` y :: k → x = y ∧ l `prefix_of` k.
Proof. intros [r Hr]. injection Hr as -> ->. split; [done|]. by exists r. Qed.

Lemma prefix_fmap {A B} (f : A → B) (l1 l2 : list A) :
  l1 `prefix_of` l2 → f <$> l1 `prefix_of` f <$> l2.
Proof. intros [k ->]. exists (f <$> k). by rewrite fmap_app. Qed.

#[export] Hint Resolve prefix_nil prefix_cons prefix_fmap : pipeline.

(** ** Generic lemmas on strings *)

(** stdpp makes [String.append] opaque to [simpl]; its two equations. *)
Lemma string_app_nil_l (b : string) : EmptyString +:+ b = b.
Proof. reflexivity. Qed.

Lemma string_app_cons x (a b : string) : String x a +:+ b = String x (a +:+ b).
Proof. reflexivity. Qed.

Lemma string_app_assoc (a b c : string) : (a +:+ b) +:+ c = a +:+ (b +:+ c).
Proof. induction a as [|x a IH]; [done|]. by rewrite !string_app_cons, IH. Qed.

Lemma string_app_nil_r (a : string) : a +:+ EmptyString = a.
Proof. induction a as [|x a IH]; [done|]. by rewrite string_app_cons, IH. Qed.

#[export] Hint Rewrite string_app_nil_l string_app_cons string_app_assoc string_app_nil_r
  : pipeline_rw.
