(* ===== verification/Messages.v ===== *)
(** * Messages, the shared [AgentState] and the [add_messages] reducer

    [AgentState] is the TypedDict declared identically in
    [src/workflow.py], [src/reader_agent.py], [src/extractor_agent.py] and
    [src/validator_agent.py]:
    [messages: Annotated[Sequence[BaseMessage], add_messages]],
    [sender: str], [count: int].  The annotation makes LangGraph merge the
    [messages] a node returns into the state with the reducer
    [add_messages]; [sender] and [count] are last-value channels that a
    node's dict overwrites.  This file writes out the message objects and
    the reducer (its id assignment and its merge by id through a dict,
    here a [gmap]) as the program uses them, both library code of
    LangChain and LangGraph, and models the program's state and the merge
    of a node's dict into it, [apply_update]. *)

From stdpp Require Import base list strings gmap.
From S2P Require Import Prelude.
Open Scope string_scope.
Open Scope list_scope.

(** ** Messages *)

(** A LangChain message: its text [content] and its [id] ([None] until
    [add_messages] assigns one).  Every message of this program is a
    [HumanMessage]: the input is one and the strings the nodes return are
    converted to [HumanMessage]s by the reducer, so the message type is
    not recorded.  Ids are [uuid4] strings in the library; here they are
    drawn from a counter, which makes them fresh by construction. *)
Record message := Message { content : string; msg_id : option nat }.

#[global] Instance message_eq_dec : EqDecision message.
Proof. solve_decision. Qed.

Definition HumanMessage (c : string) : message := Message c None.

(** What a node may put in the list it returns under ["messages"]: a
    plain string (as the three nodes do with [response.content]) or a
    message object (as [main] does with [HumanMessage(content=...)]). *)
Inductive msg_like :=
| MsgStr (s : string)
| MsgObj (m : message).

(** [convert_to_messages]: a string becomes a [HumanMessage]. *)
Definition convert_to_message (x : msg_like) : message :=
  match x with MsgStr s => HumanMessage s | MsgObj m => m end.

Definition convert_to_messages (xs : list msg_like) : list message :=
  convert_to_message <$> xs.

(** ** The reducer [add_messages] *)

(** [for m in ms: if m.id is None: m.id = str(uuid.uuid4())], with the
    [uuid4] generator as the counter [next]. *)
Fixpoint assign_ids (ms : list message) (next : nat) : list message * nat :=
  match ms with
  | [] => ([], next)
  | m :: ms' =>
      let '(m', next') :=
        match msg_id m with
        | Some _ => (m, next)
        | None => (Message (content m) (Some next), S next)
        end in
      let '(rest, next'') := assign_ids ms' next' in
      (m' :: rest, next'')
  end.

(** [merged_by_id = {m.id: i for i, m in enumerate(merged)}]: a later
    index overwrites an earlier one, as in the dict comprehension. *)
Fixpoint index_from (acc : gmap (option nat) nat) (i : nat) (ms : list message)
    : gmap (option nat) nat :=
  match ms with
  | [] => acc
  | m :: ms' => index_from (<[msg_id m := i]> acc) (S i) ms'
  end.

Definition index_by_id (ms : list message) : gmap (option nat) nat :=
  index_from ∅ 0 ms.

(** The merge loop: a right message whose id is already present replaces
    the old one in place ([merged[existing_idx] = m]); any other is
    appended and indexed ([merged_by_id[m.id] = len(merged)]). *)
Fixpoint merge_right (merged : list message) (by_id : gmap (option nat) nat)
    (right : list message) : list message :=
  match right with
  | [] => merged
  | m :: rs =>
      match by_id !! msg_id m with
      | Some idx => merge_right (<[idx := m]> merged) by_id rs
      | None => merge_right (merged ++ [m]) (<[msg_id m := length merged]> by_id) rs
      end
  end.

(** [add_messages(left, right)]: coerce, assign missing ids (left first,
    then right), merge.  The [RemoveMessage] branches are left out: the
    program never creates a [RemoveMessage]. *)
Definition add_messages (left : list message) (right : list msg_like) (next : nat)
    : list message * nat :=
  let '(left', n1) := assign_ids left next in
  let '(right', n2) := assign_ids (convert_to_messages right) n1 in
  (merge_right left' (index_by_id left') right', n2).

(** ** The state and its update *)

(** The TypedDict [AgentState]: a key a dict may lack is an [option]. *)
Record AgentState := {
  messages : list message;
  sender : option string;
  count : option nat
}.

(** [state.get("count", 0)] *)
Definition get_count (st : AgentState) : nat := default 0 (count st).

(** The dict a node returns (and the dict [main] passes as input): all
    three keys are present in every dict of this program. *)
Record update := {
  upd_messages : list msg_like;
  upd_sender : string;
  upd_count : nat
}.

(** The channels before the input is written: the [messages] channel of a
    [Sequence] type starts as the empty list, the last-value channels
    [sender] and [count] start empty. *)
Definition empty_state : AgentState :=
  {| messages := []; sender := None; count := None |}.

(** Writing a dict into the channels: [messages] through the reducer,
    [sender] and [count] overwritten. *)
Definition apply_update (st : AgentState) (u : update) (next : nat) : AgentState * nat :=
  let '(ms, next') := add_messages (messages st) (upd_messages u) next in
  ({| messages := ms; sender := Some (upd_sender u); count := Some (upd_count u) |}, next').

(** ** Invariant: the ids of the history are 0, 1, ..., n-1 and the
    counter is n. *)
Definition ids_canonical (ms : list message) (next : nat) : Prop :=
  msg_id <$> ms = Some <$> seq 0 (length ms) ∧ next = length ms.

Definition contents (ms : list message) : list string := content <$> ms.

Definition msg_like_content (x : msg_like) : string := content (convert_to_message x).

(** A right operand carries no ids: every element is a string or an
    id-less message object. *)
Definition id_free (r : list msg_like) : Prop :=
  Forall (λ x, msg_id (convert_to_message x) = None) r.

(** ** Lemmas on the reducer *)

Section Reducer.

Lemma assign_ids_all_some (ms : list message) n :
  Forall (λ m, is_Some (msg_id m)) ms → assign_ids ms n = (ms, n).
Proof.
  intros Hall. revert n. induction Hall as [|m ms [k Hk] _ IH]; intros n; [done|].
  simpl. rewrite Hk, IH. done.
Qed.

Lemma assign_ids_fresh (ms : list message) n :
  Forall (λ m, msg_id m = None) ms →
  msg_id <$> (assign_ids ms n).1 = Some <$> seq n (length ms) ∧
  content <$> (assign_ids ms n).1 = content <$> ms ∧
  (assign_ids ms n).2 = n + length ms.
Proof.
  intros Hall. revert n. induction Hall as [|m ms Hm _ IH]; intros n.
  - simpl. split_and!; [done | done | lia].
  - destruct (IH (S n)) as (H1 & H2 & H3). cbn [assign_ids]. rewrite Hm.
    destruct (assign_ids ms (S n)) as [rest n'] eqn:E. cbn [fst snd] in *.
    rewrite !fmap_cons, H1, H2. cbn [length seq]. rewrite fmap_cons.
    split_and!; [done | done | lia].
Qed.

Lemma index_from_notin acc i (ms : list message) k :
  k ∉ msg_id <$> ms → index_from acc i ms !! k = acc !! k.
Proof.
  revert acc i. induction ms as [|m ms IH]; intros acc i Hk; simpl; [done|].
  rewrite fmap_cons, elem_of_cons in Hk.
  rewrite IH by tauto. rewrite lookup_insert_ne; naive_solver.
Qed.

Lemma index_from_nodup acc i (ms : list message) j k :
  NoDup (msg_id <$> ms) → (msg_id <$> ms) !! j = Some k →
  index_from acc i ms !! k = Some (i + j).
Proof.
  revert acc i j. induction ms as [|m ms IH]; intros acc i j Hnd Hj; [done|].
  rewrite fmap_cons, NoDup_cons in Hnd. destruct Hnd as [Hnot Hnd].
  destruct j as [|j]; simpl in Hj |- *.
  - injection Hj as <-. rewrite index_from_notin by done.
    rewrite lookup_insert_eq. f_equal. lia.
  - rewrite (IH _ _ j) by done. f_equal. lia.
Qed.

Lemma merge_right_fresh merged by_id (r : list message) :
  Forall (λ m, by_id !! msg_id m = None) r → NoDup (msg_id <$> r) →
  merge_right merged by_id r = merged ++ r.
Proof.
  revert merged by_id. induction r as [|m r IH]; intros merged by_id Hfr Hnd.
  { by rewrite app_nil_r. }
  rewrite fmap_cons, NoDup_cons in Hnd. destruct Hnd as [Hnot Hnd].
  apply Forall_cons in Hfr as [Hm Hfr]. simpl. rewrite Hm.
  rewrite IH; [by rewrite <- app_assoc | | done].
  rewrite Forall_forall in Hfr |- *. intros m' Hm'.
  rewrite lookup_insert_ne; [by apply Hfr|].
  intros Heq. apply Hnot. rewrite Heq. by apply list_elem_of_fmap_2.
Qed.

Lemma canonical_all_some (ms : list message) s :
  msg_id <$> ms = Some <$> s → Forall (λ m, is_Some (msg_id m)) ms.
Proof.
  revert s. induction ms as [|m ms IH]; intros [|k s] H; try done.
  simpl in H. injection H as Hm H. constructor; [by rewrite Hm | eauto].
Qed.

Lemma id_free_convert (r : list msg_like) :
  id_free r → Forall (λ m, msg_id m = None) (convert_to_messages r).
Proof. intros H. by apply Forall_fmap. Qed.

Lemma fresh_not_in_seq k n : n <= k → Some k ∉ Some <$> seq 0 n.
Proof.
  intros Hle Hin. apply list_elem_of_fmap in Hin as (k' & [= ->] & Hk).
  apply elem_of_seq in Hk. lia.
Qed.

Lemma canonical_nodup (ms : list message) n :
  ids_canonical ms n → NoDup (msg_id <$> ms).
Proof.
  intros [-> _]. apply NoDup_fmap; [intros ?? [=]; done | apply NoDup_seq].
Qed.

Lemma convert_length (r : list msg_like) : length (convert_to_messages r) = length r.
Proof. apply length_fmap. Qed.

(** On a canonical history, id-less messages get the next ids in order
    and are appended. *)
Lemma add_messages_fresh_eq (l : list message) (r : list msg_like) n :
  ids_canonical l n → id_free r →
  add_messages l r n = (l ++ (assign_ids (convert_to_messages r) n).1, n + length r).
Proof.
  intros [Hids ->] Hfree. unfold add_messages.
  rewrite assign_ids_all_some by (eapply canonical_all_some; eauto).
  pose proof (assign_ids_fresh _ (length l) (id_free_convert _ Hfree)) as (H1 & H2 & H3).
  destruct (assign_ids (convert_to_messages r) (length l)) as [r' n2] eqn:E.
  cbn [fst snd] in *. rewrite H3, convert_length. f_equal.
  apply merge_right_fresh.
  - rewrite Forall_forall. intros m Hm.
    assert (Hin : msg_id m ∈ Some <$> seq (length l) (length (convert_to_messages r))).
    { rewrite <- H1. by apply list_elem_of_fmap_2. }
    apply list_elem_of_fmap in Hin as (k & Hk & Hkin). apply elem_of_seq in Hkin.
    unfold index_by_id. rewrite Hk, index_from_notin; [done|].
    rewrite Hids. apply fresh_not_in_seq. lia.
  - rewrite H1. apply NoDup_fmap; [intros ?? [=]; done | apply NoDup_seq].
Qed.

(** What the workflow needs of the reducer: contents appended, ids
    canonical. *)
Lemma add_messages_contents (l : list message) (r : list msg_like) n l' n' :
  ids_canonical l n → id_free r → add_messages l r n = (l', n') →
  contents l' = contents l ++ (msg_like_content <$> r) ∧ ids_canonical l' n'.
Proof.
  intros Hc Hfree Hadd. rewrite (add_messages_fresh_eq _ _ _ Hc Hfree) in Hadd.
  injection Hadd as <- <-. destruct Hc as [Hids ->].
  pose proof (assign_ids_fresh _ (length l) (id_free_convert _ Hfree)) as (H1 & H2 & H3).
  assert (Hlen : length (assign_ids (convert_to_messages r) (length l)).1 = length r).
  { rewrite <- convert_length. apply (f_equal length) in H1.
    by rewrite !length_fmap, length_seq in H1. }
  split; [|split].
  - unfold contents. rewrite fmap_app, H2. unfold convert_to_messages.
    by rewrite <- list_fmap_compose.
  - rewrite fmap_app, Hids, H1, length_app, convert_length, Hlen, seq_app, fmap_app. done.
  - rewrite length_app, Hlen. done.
Qed.

Lemma assign_ids_imap (ms : list message) n :
  Forall (λ m, msg_id m = None) ms →
  assign_ids ms n = (imap (λ i m, Message (content m) (Some (n + i))) ms, n + length ms).
Proof.
  intros Hall. revert n. induction Hall as [|m ms Hm _ IH]; intros n; simpl.
  - f_equal. lia.
  - rewrite Hm, IH. f_equal.
    + rewrite Nat.add_0_r. f_equal. apply imap_ext. intros i x _. simpl. do 2 f_equal. lia.
    + lia.
Qed.

(** On a history whose ids are canonical, [add_messages] with
    id-less messages (what every node of the program returns) appends
    them, in order, each with the next id of the counter ([uuid4] here),
    and advances the counter by their number. *)
Theorem add_messages_append (l : list message) (r : list msg_like) n :
  ids_canonical l n → id_free r →
  add_messages l r n =
    (l ++ imap (λ i x, Message (msg_like_content x) (Some (n + i))) r, n + length r).
Proof.
  intros Hc Hfree. rewrite (add_messages_fresh_eq _ _ _ Hc Hfree).
  rewrite assign_ids_imap by (by apply id_free_convert).
  unfold convert_to_messages. by rewrite imap_fmap.
Qed.

(** A message whose id is already in the history replaces the
    message with that id in place: the history keeps its length and the
    counter does not move. *)
Theorem add_messages_replace (l : list message) n i old m :
  Forall (λ x, is_Some (msg_id x)) l → NoDup (msg_id <$> l) →
  l !! i = Some old → msg_id m = msg_id old →
  add_messages l [MsgObj m] n = (<[i := m]> l, n).
Proof.
  intros Hsome Hnd Hi Hid. unfold add_messages.
  rewrite assign_ids_all_some by done.
  assert (Hm : is_Some (msg_id m)).
  { rewrite Hid. rewrite Forall_lookup in Hsome. by apply (Hsome i). }
  rewrite (assign_ids_all_some [m]) by (by constructor).
  cbn [merge_right]. unfold index_by_id.
  rewrite (index_from_nodup _ _ _ i (msg_id m)); [done | done |].
  by rewrite list_lookup_fmap, Hi, Hid.
Qed.

(** Writing a node's dict into a state with canonical ids. *)
Lemma apply_update_spec st u n st' n' :
  ids_canonical (messages st) n → id_free (upd_messages u) →
  apply_update st u n = (st', n') →
  contents (messages st') = contents (messages st) ++ (msg_like_content <$> upd_messages u) ∧
  ids_canonical (messages st') n' ∧
  sender st' = Some (upd_sender u) ∧ count st' = Some (upd_count u).
Proof.
  intros Hc Hf Happ. unfold apply_update in Happ.
  destruct (add_messages _ _ _) as [ms n2] eqn:E. injection Happ as <- <-.
  destruct (add_messages_contents _ _ _ _ _ Hc Hf E). done.
Qed.

End Reducer.

(** ** Witnesses *)

Lemma add_messages_append_witness :
  add_messages [Message "raw" (Some 0)] [MsgStr "Yes"] 1
    = ([Message "raw" (Some 0); Message "Yes" (Some 1)], 2).
Proof.
  rewrite (add_messages_append [Message "raw" (Some 0)] [MsgStr "Yes"] 1).
  - reflexivity.
  - split; reflexivity.
  - repeat constructor.
Defined.

Lemma add_messages_replace_witness :
  add_messages [Message "raw" (Some 0); Message "draft" (Some 1)]
    [MsgObj (Message "final" (Some 1))] 2
  = ([Message "raw" (Some 0); Message "final" (Some 1)], 2).
Proof.
  rewrite (add_messages_replace _ _ 1 (Message "draft" (Some 1))).
  - reflexivity.
  - repeat econstructor.
  - apply (bool_decide_unpack _). reflexivity.
  - reflexivity.
  - reflexivity.
Defined.
