(* ===== verification/Router.v ===== *)
(** * The router of [src/workflow.py]

    [router(state)] is evaluated by LangGraph after every node, on the
    state the node has just written, and names the next node or [END].
    Python's short-circuit [or] is kept: when [count >= 3] the history is
    not looked at.  [state["messages"][-1]] raises [IndexError] on an
    empty history and [state["sender"]] raises [KeyError] when the key is
    absent; both are [Err] values here.  The file states the router's
    full case table and its error cases. *)

From stdpp Require Import base list strings sets.
From S2P Require Import Prelude Messages.
Open Scope string_scope.
Open Scope list_scope.

(** LangGraph's [END] constant. *)
Definition END : string := "__end__".

Definition router (st : AgentState) : result string :=
  if decide (3 <= get_count st) then Ok END
  else
    match last (messages st) with
    | None => raise (IndexError "list index out of range")
    | Some m =>
        if decide (content m = "Yes") then Ok END
        else
          match sender st with
          | None => raise (KeyError "sender")
          | Some s =>
              if decide (s = "reader") then Ok "extractor"
              else if decide (s = "extractor") then Ok "validator"
              else if decide (s = "validator") then Ok "extractor"
              else Ok "reader"
          end
    end.

(** The last message's content, [""] on an empty history (used to state
    properties; the router itself raises there). *)
Definition last_content (st : AgentState) : string :=
  default "" (content <$> last (messages st)).

Section RouterProps.

Lemma router_unfold_live st m s :
  get_count st < 3 → last (messages st) = Some m → content m ≠ "Yes" →
  sender st = Some s →
  router st = if decide (s = "reader") then Ok "extractor"
              else if decide (s = "extractor") then Ok "validator"
              else if decide (s = "validator") then Ok "extractor"
              else Ok "reader".
Proof.
  intros Hc Hl Hy Hs. unfold router.
  rewrite decide_False by lia. rewrite Hl, decide_False by done. by rewrite Hs.
Qed.

Lemma router_stop st m :
  last (messages st) = Some m → 3 <= get_count st ∨ content m = "Yes" → router st = Ok END.
Proof.
  intros Hl Hs. unfold router. rewrite Hl.
  case_decide; [done|]. rewrite decide_True; [done|]. destruct Hs; [lia | done].
Qed.

(** C11: the retry ceiling wins over every other test: once [count >= 3]
    the router ends the run, whatever the history and the sender, even
    when reading them would raise. *)
Theorem router_ceiling (st : AgentState) :
  3 <= get_count st → router st = Ok END.
Proof. intros H. unfold router. by rewrite decide_True. Qed.

(** C9: on a non-empty history the router ends the run exactly when the
    count has reached 3 or the last message is literally ["Yes"] (exact,
    case-sensitive match), whichever stage wrote it. *)
Theorem router_end_iff (st : AgentState) m :
  last (messages st) = Some m →
  (router st = Ok END ↔ 3 <= get_count st ∨ content m = "Yes").
Proof.
  intros Hl. unfold router. rewrite Hl.
  case_decide as Hc; [split; auto|].
  case_decide as Hy; [split; auto|].
  split; [|intros [?|?]; contradiction].
  destruct (sender st) as [s|]; [|discriminate].
  repeat case_decide; intros [=]; discriminate.
Qed.

(** C10: when the run goes on, the next node is decided by [sender]
    alone: reader -> extractor, extractor -> validator, validator ->
    extractor, and any other sender (the initial [""]) -> reader; the
    count is below 3 and the last message is not ["Yes"]. *)
Theorem router_continue (st : AgentState) r :
  router st = Ok r → r ≠ END →
  get_count st < 3 ∧ last_content st ≠ "Yes" ∧ messages st ≠ [] ∧
  ((sender st = Some "reader" ∧ r = "extractor") ∨
   (sender st = Some "extractor" ∧ r = "validator") ∨
   (sender st = Some "validator" ∧ r = "extractor") ∨
   (∃ s, sender st = Some s ∧ (s ∉ ["reader"; "extractor"; "validator"]) ∧ r = "reader")).
Proof.
  intros Hr Hne. unfold router, last_content in *.
  case_decide as Hc; [by injection Hr as <-|].
  destruct (last (messages st)) as [m|] eqn:Hl; [|discriminate].
  case_decide as Hy; [by injection Hr as <-|].
  assert (messages st ≠ []) by (intros E; rewrite E in Hl; discriminate).
  destruct (sender st) as [s|]; [|discriminate].
  split_and!; [lia | done | done |].
  repeat case_decide; injection Hr as <-; subst; [tauto | tauto | tauto |].
  right; right; right. exists s. split_and!; [done | set_solver | done].
Qed.

(** C12: the router raises exactly in two situations, both below the
    ceiling: an empty history ([IndexError]) and a history whose last
    message is not ["Yes"] with no [sender] key ([KeyError]). *)
Theorem router_error_cases (st : AgentState) e :
  router st = Err e ↔
  get_count st < 3 ∧
  ((messages st = [] ∧ e = IndexError "list index out of range") ∨
   (messages st ≠ [] ∧ last_content st ≠ "Yes" ∧ sender st = None ∧ e = KeyError "sender")).
Proof.
  unfold router, last_content.
  case_decide as Hc; [split; [discriminate | lia]|].
  destruct (last (messages st)) as [m|] eqn:Hl.
  - assert (messages st ≠ []) by (intros E; rewrite E in Hl; discriminate).
    simpl. case_decide as Hy.
    + split; [discriminate | intros (_ & [[? _]|(_ & ? & _)]); done].
    + destruct (sender st).
      * split; [intros ?; repeat case_decide; discriminate | naive_solver].
      * split; [intros [= <-]; split; [lia | right; split_and!; done] |].
        intros (_ & [[? _]|(_ & _ & _ & ->)]); done.
  - apply last_None in Hl. split; [intros [= <-]; split; [lia | left; done]|].
    intros (_ & [[_ ->]|[? _]]); done.
Qed.

End RouterProps.

(** The five router scenarios of the spec (section 8): a fresh state
    goes to the reader, the reader's output to the extractor, a validator
    ["Yes"] ends the run, the ceiling ends it even on a non-["Yes"]
    extraction, and validator corrections send the run back to the
    extractor. *)
Example router_scenarios :
  router {| messages := [HumanMessage "raw text"]; sender := Some ""; count := Some 0 |} = Ok "reader" ∧
  router {| messages := [HumanMessage "raw text"; HumanMessage "normalized text"];
            sender := Some "reader"; count := Some 0 |} = Ok "extractor" ∧
  router {| messages := [HumanMessage "{...json...}"; HumanMessage "Yes"];
            sender := Some "validator"; count := Some 2 |} = Ok END ∧
  router {| messages := [HumanMessage "{...json...}"];
            sender := Some "extractor"; count := Some 3 |} = Ok END ∧
  router {| messages := [HumanMessage "{...json...}"; HumanMessage "- Missing phone number"];
            sender := Some "validator"; count := Some 1 |} = Ok "extractor".
Proof. split_and!; reflexivity. Qed.

(** Witnesses *)

Lemma router_end_iff_witness :
  router {| messages := [HumanMessage "raw"; HumanMessage "Yes"];
            sender := Some "reader"; count := Some 0 |} = Ok END.
Proof.
  apply (router_end_iff _ (HumanMessage "Yes")); [reflexivity | right; reflexivity].
Defined.

Lemma router_ceiling_witness :
  router {| messages := []; sender := None; count := Some 3 |} = Ok END.
Proof. apply router_ceiling. unfold get_count. simpl. lia. Defined.

Lemma router_continue_witness :
  get_count {| messages := [HumanMessage "draft"]; sender := Some "extractor"; count := Some 1 |} < 3 ∧
  sender {| messages := [HumanMessage "draft"]; sender := Some "extractor"; count := Some 1 |}
    = Some "extractor".
Proof.
  assert (H := router_continue
    {| messages := [HumanMessage "draft"]; sender := Some "extractor"; count := Some 1 |}
    "validator" eq_refl ltac:(discriminate)).
  destruct H as (Hc & _ & _ & _). split; [exact Hc | reflexivity].
Defined.

Lemma router_error_cases_witness :
  router {| messages := [HumanMessage "draft"]; sender := None; count := Some 0 |}
    = Err (KeyError "sender").
Proof.
  apply router_error_cases. split; [unfold get_count; simpl; lia|]. right.
  split_and!; [discriminate | discriminate | reflexivity | reflexivity].
Defined.
