(* ===== verification/Agents.v ===== *)
(** * The three agents: [reader_call], [extractor_call], [validator_call]

    Each node of the graph ([src/reader_agent.py], [src/extractor_agent.py],
    [src/validator_agent.py]) builds a chat prompt from a fixed system
    message and a human message holding the whole history
    [state['messages']], pipes it into [ChatOpenAI(model="gpt-4o-mini")],
    and returns the dict [{"messages": [response.content], "sender": name,
    "count": ...}]; only the extractor adds one to the count.  The model is
    the interface [LanguageModel]: one [invoke] on a [request] (model
    name, system prompt, history), which returns the response text or
    raises ([ModelCallError]).  An exception is not caught by the nodes:
    it is the node's result. *)

From stdpp Require Import base list strings.
From S2P Require Import Prelude Messages.
Open Scope string_scope.
Open Scope list_scope.

(** ** The model interface *)

(** What [prompt | llm] sends: the model name, the system message, and
    the history substituted for [{input}]. *)
Record request := Request {
  req_model : string;
  req_system : string;
  req_input : list message
}.

Class LanguageModel := invoke : request → result string.

(** ** The prompts *)

Definition model_name : string := "gpt-4o-mini".

(** The system messages, character for character. *)
Definition reader_prompt : string :=
"You are a resume reading and preparing assistant. You will be given the contents of the resume that is parsed with a particular file reader.
         You are expected to prepare the resume data for processing further. The document should contain its originality and you should only beautify it.
         Also you are not expected to provide any headers like 'Here is the resume' or any footers like 'This resume format maintains the originality of the content'. Instead just provide only the content.
         Remember that you are a part of a team. So you are expected to present file contents properly without any changes that affects the context.".

Definition extractor_prompt : string :=
"You are a resume parsing assistant. You will be given contents of the resume. You are expected to extract various information such as:
        1. Personal Information
        2. Education
        3. Work Experience
        4. Skills
        Compile the validated entities into a predefined JSON format for downstream use.
        Remember that you are a part of a team. So you are expected to read the file contents properly and you are expected to give the data properly.
        If the extraction is not up to the mark, you will be reprompted to extract that particular values again.".

Definition validator_prompt : string :=
"You are a parsed resume validation assistant. You will be given the extracted entities from the resume.
                 Perform quality checks and ensure that the fields match with the actual content.
                 So provide corrections that the other agent will then look at and then extract them correctly.
         If there are quality errors, then provide them as a set of bullet points.
                Remember that you are a part of a team. So you are expected to present the corrections properly without any unwanted changes.
                 If you don't notice any changes or mistakes then just return 'Yes'. Also you should not provide any headers or additional information like 'There is no mistake', 'The extraction is correct', etc. Just provide the final 'Yes'.".

(** ** The nodes *)

Section Nodes.
Context `{LM : LanguageModel}.

Definition reader_call (st : AgentState) : result update :=
  response ← invoke (Request model_name reader_prompt (messages st));
  Ok {| upd_messages := [MsgStr response]; upd_sender := "reader";
        upd_count := get_count st |}.

Definition extractor_call (st : AgentState) : result update :=
  response ← invoke (Request model_name extractor_prompt (messages st));
  Ok {| upd_messages := [MsgStr response]; upd_sender := "extractor";
        upd_count := get_count st + 1 |}.

Definition validator_call (st : AgentState) : result update :=
  response ← invoke (Request model_name validator_prompt (messages st));
  Ok {| upd_messages := [MsgStr response]; upd_sender := "validator";
        upd_count := get_count st |}.

End Nodes.

(** ** The three nodes as one family *)

Inductive stage := Reader | Extractor | Validator.

#[global] Instance stage_eq_dec : EqDecision stage.
Proof. solve_decision. Qed.

(** The [name] each node writes into [sender]. *)
Definition stage_name (s : stage) : string :=
  match s with Reader => "reader" | Extractor => "extractor" | Validator => "validator" end.

Definition stage_prompt (s : stage) : string :=
  match s with
  | Reader => reader_prompt | Extractor => extractor_prompt | Validator => validator_prompt
  end.

(** How much a node adds to [count]. *)
Definition count_incr (s : stage) : nat :=
  match s with Extractor => 1 | _ => 0 end.

Definition stage_request (s : stage) (st : AgentState) : request :=
  Request model_name (stage_prompt s) (messages st).

(** The dict a node returns once the model has answered [resp]. *)
Definition stage_update (s : stage) (st : AgentState) (resp : string) : update :=
  {| upd_messages := [MsgStr resp]; upd_sender := stage_name s;
     upd_count := get_count st + count_incr s |}.

Section Stages.
Context `{LM : LanguageModel}.

Definition stage_call (s : stage) : AgentState → result update :=
  match s with
  | Reader => reader_call
  | Extractor => extractor_call
  | Validator => validator_call
  end.

Lemma stage_call_eq s st :
  stage_call s st = (resp ← invoke (stage_request s st); Ok (stage_update s st resp)).
Proof.
  destruct s; unfold stage_call, reader_call, extractor_call, validator_call,
    stage_update, stage_request; simpl;
    destruct (invoke _); simpl; rewrite ?Nat.add_0_r; done.
Qed.

End Stages.

(** ** Properties of the nodes *)

Section StageProps.
Context `{LM : LanguageModel}.

(** C13: a node succeeds exactly when its single model call succeeds;
    the call is made to ["gpt-4o-mini"] with the node's own system
    prompt and the whole history; the returned dict holds the response
    as its one message, the node's name as sender, and the count read
    with [state.get("count", 0)], plus one for the extractor only. *)
Theorem stage_call_spec (s : stage) (st : AgentState) (u : update) :
  stage_call s st = Ok u ↔
  ∃ resp, invoke (Request "gpt-4o-mini" (stage_prompt s) (messages st)) = Ok resp ∧
    upd_messages u = [MsgStr resp] ∧ upd_sender u = stage_name s ∧
    upd_count u = get_count st + count_incr s.
Proof.
  rewrite stage_call_eq. unfold stage_request, model_name.
  destruct (invoke _) as [resp|e]; simpl.
  - split.
    + intros [= <-]. eauto.
    + intros (r & [= <-] & Hm & Hs & Hc). destruct u; simpl in *; subst. done.
  - split; [intros H; discriminate H | intros (? & H & _); discriminate H].
Qed.

(** C14: a failing model call is the node's failure, unchanged: the node
    neither catches nor transforms the exception. *)
Theorem stage_call_error (s : stage) (st : AgentState) (e : error) :
  stage_call s st = Err e ↔ invoke (stage_request s st) = Err e.
Proof. rewrite stage_call_eq. destruct (invoke _); simpl; split; intros H; congruence. Qed.

End StageProps.
