(* ===== verification/Prompts.v ===== *)
(** * The nodes' chat prompts and their formatting

    Each node builds
    [ChatPromptTemplate.from_messages([("system", <prompt>), ("human", "{input}")])]
    and invokes it with [{"input": state['messages']}].  Both message
    templates are f-string templates: LangChain formats each of them with
    [str.format]'s parser ([string.Formatter.parse]), in which [{{] and
    [}}] stand for literal braces and [{name}] for a replacement field.  A
    system prompt that contained a brace would therefore be parsed as a
    template too, and raise or lose text.

    [scan] is that parser, with its error messages; [format_fstring]
    formats one template with keyword arguments; [chat_template] and
    [format_messages] are the nodes' prompt and its [invoke].  The
    theorem [node_prompt_format] shows that the three system prompts
    contain no brace, so that formatting never raises, keeps them
    verbatim and only substitutes the rendered history for [{input}]:
    the model receives exactly the system prompt and the history, as the
    [request] of [Agents] records. *)

From stdpp Require Import base list strings gmap.
From Stdlib Require Import Ascii.
From S2P Require Import Prelude Messages Agents.
Open Scope string_scope.
Open Scope list_scope.

(** ** [str.format] templates *)

Inductive piece := Lit (c : ascii) | Field (name : string).

(** The scanner's state is [None] in literal text and [Some name] inside
    a replacement field, with the field name read so far.  Conversions
    ([!r]) and format specifications ([:...]) are not split off the
    name: no template of the program has one. *)
Fixpoint scan (field : option string) (s : string) : result (list piece) :=
  match field, s with
  | None, EmptyString => Ok []
  | None, String "{" (String "{" s') => cons (Lit "{") <$> scan None s'
  | None, String "{" EmptyString => raise (ValueError "Single '{' encountered in format string")
  | None, String "{" s' => scan (Some "") s'
  | None, String "}" (String "}" s') => cons (Lit "}") <$> scan None s'
  | None, String "}" _ => raise (ValueError "Single '}' encountered in format string")
  | None, String c s' => cons (Lit c) <$> scan None s'
  | Some _, EmptyString => raise (ValueError "expected '}' before end of string")
  | Some name, String "}" s' => cons (Field name) <$> scan None s'
  | Some _, String "{" _ => raise (ValueError "unexpected '{' in field name")
  | Some name, String c s' => scan (Some (name +:+ String c "")) s'
  end.

(** A piece formatted with the keyword arguments [kw]: an empty field
    name asks for a positional argument, of which there are none. *)
Definition render_piece (kw : gmap string string) (p : piece) : result string :=
  match p with
  | Lit c => Ok (String c "")
  | Field "" => raise (IndexError "Replacement index 0 out of range for positional args tuple")
  | Field x => kw !! x !? KeyError x
  end.

Fixpoint format_pieces (kw : gmap string string) (ps : list piece) : result string :=
  match ps with
  | [] => Ok ""
  | p :: ps' => s1 ← render_piece kw p; s2 ← format_pieces kw ps'; Ok (s1 +:+ s2)
  end.

(** [tmpl.format] with the keyword arguments [kw]. *)
Definition format_fstring (tmpl : string) (kw : gmap string string) : result string :=
  ps ← scan None tmpl; format_pieces kw ps.

(** ** The nodes' prompts *)

(** [ChatPromptTemplate.from_messages([("system", ...), ("human", "{input}")])],
    the same shape in the three nodes, with the node's system prompt. *)
Definition chat_template (s : stage) : list (string * string) :=
  [("system", stage_prompt s); ("human", "{input}")].

(** [prompt.invoke(kw)]: every message template formatted with the same
    arguments, in order; the first failure is the call's failure. *)
Fixpoint format_messages (tmpl : list (string * string)) (kw : gmap string string)
    : result (list (string * string)) :=
  match tmpl with
  | [] => Ok []
  | (role, t) :: tmpl' => m ← format_fstring t kw; ms ← format_messages tmpl' kw; Ok ((role, m) :: ms)
  end.

(** No brace in a string. *)
Fixpoint brace_free (s : string) : bool :=
  match s with
  | EmptyString => true
  | String c s' => negb (bool_decide (c = "{"%char) || bool_decide (c = "}"%char)) && brace_free s'
  end.

(** ** Formatting brace-free text *)

Section Format.

Lemma scan_brace_free s :
  brace_free s = true → scan None s = Ok (Lit <$> String.list_ascii_of_string s).
Proof.
  induction s as [|c s IH]; [done|]. cbn [brace_free]. rewrite andb_true_iff, negb_true_iff, orb_false_iff.
  intros [[Hl Hr] Hs]. apply bool_decide_eq_false in Hl, Hr.
  assert (scan None (String c s) = cons (Lit c) <$> scan None s) as ->.
  { destruct c as [[] [] [] [] [] [] [] []]; try reflexivity; by exfalso. }
  by rewrite IH.
Qed.

Lemma format_lits kw s : format_pieces kw (Lit <$> String.list_ascii_of_string s) = Ok s.
Proof. induction s as [|c s IH]; [done|]. cbn. by rewrite IH. Qed.

(** A template without braces formats to itself, whatever the
    arguments. *)
Lemma format_brace_free s kw : brace_free s = true → format_fstring s kw = Ok s.
Proof. intros H. unfold format_fstring. rewrite scan_brace_free by done. apply format_lits. Qed.

Lemma format_input kw : format_fstring "{input}" kw = kw !! "input" !? KeyError "input".
Proof.
  unfold format_fstring. change (scan None "{input}") with (Ok [Field "input"] : result (list piece)).
  cbn. destruct (kw !! "input"); cbn; by rewrite ?string_app_nil_r.
Qed.

Lemma prompts_brace_free s : brace_free (stage_prompt s) = true.
Proof. destruct s; vm_compute; reflexivity. Qed.

(** C29: invoking a node's chat prompt with its one variable never
    raises and changes nothing but the placeholder: the three system
    prompts contain no brace, so [str.format] leaves them verbatim, and
    the human message is the rendered history put in for [{input}]. *)
Theorem node_prompt_format (s : stage) (rendered : string) :
  format_messages (chat_template s) {["input" := rendered]} =
    Ok [("system", stage_prompt s); ("human", rendered)].
Proof.
  cbn [format_messages chat_template].
  rewrite (format_brace_free (stage_prompt s)) by apply prompts_brace_free.
  rewrite format_input, lookup_singleton_eq. done.
Qed.

End Format.
