(* ===== verification/Controller.v ===== *)
(** * The controller of the spec, abstractly

    Section 4.2 of the spec describes the pipeline controller as a state
    machine over {Start, Reader, Extractor, Validator, Terminated} with the
    conversation state {messages, sender, count}: Start hands control to
    the Reader, each stage appends one message, writes its name into
    [sender] and (the Extractor only) adds one to [count], and the route
    is then chosen by the priority rules of section 4.2.  This file states
    that machine as the step relation [ctrl_step], with message contents
    only (no ids, no missing keys), and proves it terminates within a
    bound given by the measure [ctrl_measure].  [Workflow] proves that the
    LangGraph execution of [src/workflow.py] refines it. *)

From stdpp Require Import base list strings relations.
From S2P Require Import Prelude Agents.
Open Scope string_scope.
Open Scope list_scope.

Inductive phase := PStart | PStage (s : stage) | PTerminated.

#[global] Instance phase_eq_dec : EqDecision phase.
Proof. solve_decision. Qed.

Record ctrl := Ctrl {
  c_phase : phase;
  c_msgs : list string;
  c_sender : string;
  c_count : nat
}.

(** The routing rules of section 4.2, in their priority order. *)
Definition spec_route (msgs : list string) (snd : string) (cnt : nat) : phase :=
  if decide (3 <= cnt ∨ last msgs = Some "Yes") then PTerminated
  else if decide (snd = "reader") then PStage Extractor
  else if decide (snd = "extractor") then PStage Validator
  else if decide (snd = "validator") then PStage Extractor
  else PStage Reader.

Inductive ctrl_step : ctrl → ctrl → Prop :=
| ctrl_start msgs snd cnt :
    ctrl_step (Ctrl PStart msgs snd cnt) (Ctrl (PStage Reader) msgs snd cnt)
| ctrl_run s msgs snd cnt resp :
    ctrl_step (Ctrl (PStage s) msgs snd cnt)
      (Ctrl (spec_route (msgs ++ [resp]) (stage_name s) (cnt + count_incr s))
            (msgs ++ [resp]) (stage_name s) (cnt + count_incr s)).

(** The state the spec creates for a run (section 3, Lifecycle). *)
Definition ctrl_init (raw : string) : ctrl := Ctrl PStart [raw] "" 0.

(** ** The measure: how many stage executions can still happen *)

(** From the Extractor with count [c]: one extraction, then (if the
    ceiling is not reached) one validation and the rest. *)
Definition rem_extractor (c : nat) : nat := Nat.max 1 (2 * (3 - c) - 1).

Definition rem_stage (s : stage) (c : nat) : nat :=
  match s with
  | Extractor => rem_extractor c
  | _ => if decide (3 <= c) then 1 else 1 + rem_extractor c
  end.

Definition ctrl_measure (k : ctrl) : nat :=
  match c_phase k with
  | PStart => 1 + rem_stage Reader (c_count k)
  | PStage s => rem_stage s (c_count k)
  | PTerminated => 0
  end.

(** The invariant of reachable states: the count never passes 3 and a
    stage is only scheduled below the ceiling. *)
Definition ctrl_inv (k : ctrl) : Prop :=
  c_count k <= 3 ∧ (c_phase k ≠ PTerminated → c_count k < 3).

Section ControllerProps.

Lemma spec_route_stage msgs s cnt s' :
  spec_route msgs (stage_name s) cnt = PStage s' →
  cnt < 3 ∧ s' = match s with Reader => Extractor | Extractor => Validator | Validator => Extractor end.
Proof.
  unfold spec_route. case_decide as Hstop; [discriminate|].
  intros H. split; [lia|]. destruct s; simpl in H; repeat case_decide; simplify_eq; done.
Qed.

(** Every step of the spec's controller decreases the measure: the
    controller terminates, whatever the stages answer. *)
Theorem ctrl_measure_decreases (k k' : ctrl) :
  ctrl_step k k' → ctrl_measure k' < ctrl_measure k.
Proof.
  destruct 1 as [msgs snd cnt|s msgs snd cnt resp]; cbn [ctrl_measure c_phase c_count].
  { unfold rem_stage. case_decide; lia. }
  destruct (spec_route _ _ _) as [| s' |] eqn:Hr; cbn [ctrl_measure c_phase c_count].
  - revert Hr. unfold spec_route. repeat case_decide; discriminate.
  - apply spec_route_stage in Hr as [Hc ->].
    unfold rem_stage, rem_extractor, count_incr in *. destruct s; repeat case_decide; lia.
  - unfold rem_stage, rem_extractor. destruct s; repeat case_decide; lia.
Qed.

(** Along any sequence of [n] controller steps, [n] is at most the
    measure of the first state. *)
Theorem ctrl_bound (n : nat) (k k' : ctrl) :
  nsteps ctrl_step n k k' → n <= ctrl_measure k.
Proof.
  induction 1 as [|n k1 k2 k3 Hstep _ IH]; [lia|].
  pose proof (ctrl_measure_decreases _ _ Hstep). lia.
Qed.

Lemma ctrl_step_inv (k k' : ctrl) : ctrl_inv k → ctrl_step k k' → ctrl_inv k'.
Proof.
  intros [Hle Hlt] Hstep. destruct Hstep as [msgs snd cnt|s msgs snd cnt resp];
    unfold ctrl_inv in *; cbn [c_phase c_count] in *.
  - split; [lia | intros _; by apply Hlt].
  - assert (cnt < 3) by (apply Hlt; discriminate).
    split; [unfold count_incr; destruct s; lia|].
    destruct (spec_route _ _ _) as [| s' |] eqn:Hr; intros Hne.
    + revert Hr. unfold spec_route. repeat case_decide; discriminate.
    + by apply spec_route_stage in Hr as [? _].
    + done.
Qed.

(** C17: in every state the spec's controller reaches from a fresh run,
    the count is at most 3, and below 3 whenever a stage is still to run:
    the retry ceiling caps the number of extractions at 3. *)
Theorem ctrl_reachable_inv (raw : string) (k : ctrl) :
  rtc ctrl_step (ctrl_init raw) k → ctrl_inv k.
Proof.
  intros Hr. remember (ctrl_init raw) as k0 eqn:E.
  assert (ctrl_inv k0) as Hinv by (subst; split; simpl; lia).
  clear E. induction Hr as [|k1 k2 k3 Hstep _ IH]; [done|].
  apply IH. by eapply ctrl_step_inv.
Qed.

(** C18: a fresh run of the controller makes at most 7 steps: the start
    step and at most 6 stage executions. *)
Corollary ctrl_init_bound (raw : string) (n : nat) (k : ctrl) :
  nsteps ctrl_step n (ctrl_init raw) k → n <= 7.
Proof.
  intros H. apply ctrl_bound in H. revert H.
  unfold ctrl_measure, rem_stage, rem_extractor. simpl. lia.
Qed.

End ControllerProps.

(** ** Witnesses *)

Lemma ctrl_measure_decreases_witness :
  ctrl_step (Ctrl (PStage Extractor) ["cv"] "reader" 0)
            (Ctrl (PStage Validator) ["cv"; "x"] "extractor" 1) ∧
  ctrl_measure (Ctrl (PStage Validator) ["cv"; "x"] "extractor" 1)
    < ctrl_measure (Ctrl (PStage Extractor) ["cv"] "reader" 0).
Proof.
  assert (H : ctrl_step (Ctrl (PStage Extractor) ["cv"] "reader" 0)
                        (Ctrl (PStage Validator) ["cv"; "x"] "extractor" 1))
    by apply (ctrl_run Extractor ["cv"] "reader" 0 "x").
  split; [exact H | exact (ctrl_measure_decreases _ _ H)].
Defined.

(** The bound is reached: with answers that are never ["Yes"], the
    controller runs Start, Reader, Extractor, Validator, Extractor,
    Validator, Extractor and stops on the ceiling. *)
Lemma ctrl_full_run :
  nsteps ctrl_step 7 (ctrl_init "cv")
    (Ctrl PTerminated ["cv"; "- fix"; "- fix"; "- fix"; "- fix"; "- fix"; "- fix"] "extractor" 3).
Proof.
  eapply nsteps_l; [apply ctrl_start|].
  do 6 (eapply nsteps_l; [apply (ctrl_run _ _ _ _ "- fix")|]).
  apply nsteps_O.
Qed.

Lemma ctrl_bound_witness :
  7 <= ctrl_measure (ctrl_init "cv").
Proof. exact (ctrl_bound _ _ _ ctrl_full_run). Defined.

Lemma ctrl_init_bound_witness :
  ∃ k, nsteps ctrl_step 7 (ctrl_init "cv") k ∧ c_phase k = PTerminated ∧ 7 <= 7.
Proof.
  eexists. split_and!; [exact ctrl_full_run | reflexivity |].
  exact (ctrl_init_bound _ _ _ ctrl_full_run).
Defined.

Lemma ctrl_reachable_inv_witness :
  ctrl_inv (Ctrl PTerminated ["cv"; "- fix"; "- fix"; "- fix"; "- fix"; "- fix"; "- fix"] "extractor" 3).
Proof.
  apply (ctrl_reachable_inv "cv").
  apply rtc_nsteps. exists 7. exact ctrl_full_run.
Defined.
