(* ===== verification/Workflow.v ===== *)
(** * The LangGraph workflow of [src/workflow.py] and its execution

    [create_workflow] builds a [StateGraph(AgentState)] with three nodes,
    an edge from START to ["reader"], and one conditional edge per node:
    the node's output state is passed to [router] and its answer looked
    up in the edge's path map ([{"extractor": "extractor", END: END}] and
    so on).  [main] runs [workflow.stream(initial_state, config)], which
    in the "updates" mode of a compiled [StateGraph] yields one chunk
    [{node_name: returned_dict}] per executed node.

    The graph is data here ([graph], [create_workflow]).  Its execution is
    given twice:
    - [exec] / [stream], an executable interpreter of the Pregel loop:
      run the current node (one model call), write its dict into the
      channels ([apply_update]), evaluate the node's conditional edge
      ([branch_target]: router, then path-map lookup, a miss being a
      [KeyError]), emit the chunk, and go on or stop at [END].  Its fuel
      is LangGraph's [recursion_limit] (25 by default, and [main]'s config
      does not change it): a run needing more supersteps raises
      [GraphRecursionError];
    - [gstep], a step relation over configurations whose model answers are
      arbitrary strings; [exec] runs along it ([exec_sound]), and it
      refines the spec's controller ([gstep_refines]).
    Both are the library's Pregel loop as it runs this graph; the
    checkpointer the graph is compiled with is added in [Checkpoint]. *)

From stdpp Require Import base list strings gmap relations.
From S2P Require Import Prelude Messages Router Agents Controller.
Open Scope string_scope.
Open Scope list_scope.

(** ** The graph *)

(** A conditional edge: its routing function and its path map. *)
Record branch := Branch {
  br_route : AgentState → result string;
  br_path_map : gmap string string
}.

Record graph := Graph {
  g_nodes : gmap string stage;           (** [add_node(name, fn)] *)
  g_entry : string;                      (** [add_edge(START, name)] *)
  g_branches : gmap string branch        (** [add_conditional_edges(src, router, path_map)] *)
}.

Definition create_workflow : graph := {|
  g_nodes := {[ "reader" := Reader; "extractor" := Extractor; "validator" := Validator ]};
  g_entry := "reader";
  g_branches :=
    {[ "reader" := Branch router {[ "extractor" := "extractor"; END := END ]};
       "extractor" := Branch router {[ "validator" := "validator"; END := END ]};
       "validator" := Branch router {[ "extractor" := "extractor"; END := END ]} ]}
|}.

(** LangGraph's default [recursion_limit]. *)
Definition recursion_limit : nat := 25.

(** A chunk of [workflow.stream] in "updates" mode: the node's name and
    the dict it returned. *)
Definition chunk : Type := string * update.

(** The conditional edge of [node], evaluated on the state the node has
    written.  A node without an outgoing edge ends the run. *)
Definition branch_target (g : graph) (node : string) (st : AgentState) : result string :=
  match g_branches g !! node with
  | None => Ok END
  | Some b => key ← br_route b st; br_path_map b !! key !? KeyError key
  end.

(** [initial_state] of [main]. *)
Definition initial_state (file_content : string) : update :=
  {| upd_messages := [MsgObj (HumanMessage file_content)]; upd_sender := "";
     upd_count := 0 |}.

(** ** The interpreter *)

Section Exec.
Context `{LM : LanguageModel}.
Variable g : graph.

Fixpoint exec (fuel : nat) (node : string) (st : AgentState) (next : nat)
    : list chunk * result (AgentState * nat) :=
  match fuel with
  | 0 => ([], raise GraphRecursionError)
  | S fuel' =>
      match g_nodes g !! node with
      | None => ([], raise (KeyError node))
      | Some s =>
          match stage_call s st with
          | Err e => ([], Err e)
          | Ok u =>
              let '(st', next') := apply_update st u next in
              match branch_target g node st' with
              | Err e => ([], Err e)
              | Ok dest =>
                  if decide (dest = END) then ([(node, u)], Ok (st', next'))
                  else
                    let '(cs, r) := exec fuel' dest st' next' in
                    ((node, u) :: cs, r)
              end
          end
      end
  end.

(** [workflow.stream(initial_state, config)]: the input is written into
    the empty channels, then the START edge leads to the entry node. *)
Definition stream (inp : update) : list chunk * result AgentState :=
  let '(st0, n0) := apply_update empty_state inp 0 in
  let '(cs, r) := exec recursion_limit (g_entry g) st0 n0 in
  (cs, fst <$> r).

End Exec.

(** ** The step relation *)

Inductive gconf :=
| GRun (node : string) (st : AgentState) (next : nat)
| GDone (st : AgentState) (next : nat)
| GFail (e : error).

Inductive gstep (g : graph) : gconf → gconf → Prop :=
| gstep_next node s st n resp st' n' dest :
    g_nodes g !! node = Some s →
    apply_update st (stage_update s st resp) n = (st', n') →
    branch_target g node st' = Ok dest → dest ≠ END →
    gstep g (GRun node st n) (GRun dest st' n')
| gstep_end node s st n resp st' n' :
    g_nodes g !! node = Some s →
    apply_update st (stage_update s st resp) n = (st', n') →
    branch_target g node st' = Ok END →
    gstep g (GRun node st n) (GDone st' n')
| gstep_model_error node s st n d :
    g_nodes g !! node = Some s →
    gstep g (GRun node st n) (GFail (ModelCallError d))
| gstep_route_error node s st n resp st' n' e :
    g_nodes g !! node = Some s →
    apply_update st (stage_update s st resp) n = (st', n') →
    branch_target g node st' = Err e →
    gstep g (GRun node st n) (GFail e)
| gstep_unknown_node node st n :
    g_nodes g !! node = None →
    gstep g (GRun node st n) (GFail (KeyError node)).

(** ** The schedule a run follows when the model never answers ["Yes"] *)

Definition next_stage (s : stage) : stage :=
  match s with Reader => Extractor | Extractor => Validator | Validator => Extractor end.

(** Extractor, validator, extractor, ... with [k] extractions left. *)
Fixpoint ext_sched (k : nat) : list string :=
  match k with
  | 0 | 1 => ["extractor"]
  | S k' => "extractor" :: "validator" :: ext_sched k'
  end.

Definition sched (s : stage) (c : nat) : list string :=
  match s with
  | Extractor => ext_sched (3 - c)
  | _ => stage_name s :: (if decide (3 <= c) then [] else ext_sched (3 - c))
  end.

(** The abstraction of a configuration to the spec's controller: message
    contents, the sender ([""] when absent), the count read with
    [state.get("count", 0)]. *)
Definition abs_phase (g : graph) (node : string) : phase :=
  match g_nodes g !! node with Some s => PStage s | None => PTerminated end.

Definition abs (g : graph) (c : gconf) : ctrl :=
  match c with
  | GRun node st _ => Ctrl (abs_phase g node) (contents (messages st)) (default "" (sender st)) (get_count st)
  | GDone st _ => Ctrl PTerminated (contents (messages st)) (default "" (sender st)) (get_count st)
  | GFail _ => Ctrl PTerminated [] "" 0
  end.

(** ** The step of the concrete graph *)

Definition path_of (s : stage) : gmap string string :=
  match s with
  | Reader => {[ "extractor" := "extractor"; END := END ]}
  | Extractor => {[ "validator" := "validator"; END := END ]}
  | Validator => {[ "extractor" := "extractor"; END := END ]}
  end.

(** Whether the run stops after stage [s], run on count [c], answered [resp]. *)
Definition stops (s : stage) (c : nat) (resp : string) : Prop :=
  3 <= c + count_incr s ∨ resp = "Yes".

#[global] Instance stops_dec s c resp : Decision (stops s c resp).
Proof. unfold stops. apply _. Defined.

Section Step.

Lemma workflow_node (s : stage) : g_nodes create_workflow !! stage_name s = Some s.
Proof. by destruct s. Qed.

Lemma workflow_branch (s : stage) :
  g_branches create_workflow !! stage_name s = Some (Branch router (path_of s)).
Proof. by destruct s. Qed.

Lemma id_free_single (resp : string) : id_free [MsgStr resp].
Proof. by repeat constructor. Qed.

(** Running stage [s] on a state with canonical ids: the new state has
    canonical ids, its history is the old one with [resp] appended, its
    sender is the stage's name and its count is raised by the stage's
    increment. *)
Lemma stage_write s st n resp st' n' :
  ids_canonical (messages st) n →
  apply_update st (stage_update s st resp) n = (st', n') →
  ids_canonical (messages st') n' ∧
  contents (messages st') = contents (messages st) ++ [resp] ∧
  (∃ m, last (messages st') = Some m ∧ content m = resp) ∧
  sender st' = Some (stage_name s) ∧
  get_count st' = get_count st + count_incr s.
Proof.
  intros Hc Happ.
  destruct (apply_update_spec st (stage_update s st resp) n st' n' Hc (id_free_single resp) Happ)
    as (Hcont & Hc' & Hs & Hcnt).
  simpl in Hcont. split_and!; [done | done | | done | by unfold get_count; rewrite Hcnt].
  assert (Hl : content <$> last (messages st') = Some resp).
  { rewrite <- fmap_last. fold (contents (messages st')). by rewrite Hcont, last_snoc. }
  destruct (last (messages st')) as [m|]; [injection Hl; eauto | discriminate].
Qed.

(** After stage [s], the conditional edge leads to [END] when the run
    stops and to the next stage otherwise; it never raises. *)
Lemma branch_after_stage s st n resp st' n' :
  ids_canonical (messages st) n →
  apply_update st (stage_update s st resp) n = (st', n') →
  branch_target create_workflow (stage_name s) st' =
    Ok (if decide (stops s (get_count st) resp) then END else stage_name (next_stage s)).
Proof.
  intros Hc Happ.
  destruct (stage_write _ _ _ _ _ _ Hc Happ) as (_ & _ & (m & Hlast & Hm) & Hs & Hcnt).
  unfold branch_target. rewrite workflow_branch. cbn [br_route br_path_map].
  unfold stops. case_decide as Hstop.
  - rewrite (router_stop st' m Hlast) by (rewrite Hcnt, Hm; tauto).
    rewrite bind_Ok. by destruct s.
  - assert (¬ 3 <= get_count st + count_incr s ∧ resp ≠ "Yes") as [Hc3 Hy] by tauto.
    rewrite (router_unfold_live st' m (stage_name s)); [| lia | done | congruence | done].
    by destruct s.
Qed.

Context `{LM : LanguageModel}.

Lemma exec_stage f s st n :
  ids_canonical (messages st) n →
  exec create_workflow (S f) (stage_name s) st n =
    match invoke (stage_request s st) with
    | Err e => ([], Err e)
    | Ok resp =>
        let '(st', n') := apply_update st (stage_update s st resp) n in
        if decide (stops s (get_count st) resp)
        then ([(stage_name s, stage_update s st resp)], Ok (st', n'))
        else
          let '(cs, r) := exec create_workflow f (stage_name (next_stage s)) st' n' in
          ((stage_name s, stage_update s st resp) :: cs, r)
    end.
Proof.
  intros Hc. cbn [exec]. rewrite workflow_node, stage_call_eq.
  destruct (invoke _) as [resp|e]; [|done]. rewrite bind_Ok.
  destruct (apply_update _ _ _) as [st' n'] eqn:Happ.
  rewrite (branch_after_stage _ _ _ _ _ _ Hc Happ).
  destruct (decide (stops s (get_count st) resp)).
  - by rewrite decide_True.
  - by rewrite decide_False by (destruct s; discriminate).
Qed.

End Step.

(** ** Runs of the concrete graph *)

(** The contents a list of chunks appends, and how many extractions it
    holds. *)
Definition chunk_contents (cs : list chunk) : list string :=
  concat ((λ c, msg_like_content <$> upd_messages c.2) <$> cs).

Definition extractions (cs : list chunk) : nat :=
  length (filter (λ x, x = "extractor") (fst <$> cs)).

Section Runs.

Lemma sched_cons s c : ∃ tl, sched s c = stage_name s :: tl.
Proof.
  destruct s; cbn [sched stage_name]; [eauto | destruct (3 - c) as [|[|k]]; cbn; eauto | eauto].
Qed.

Lemma sched_step s c :
  c + count_incr s < 3 → sched s c = stage_name s :: sched (next_stage s) (c + count_incr s).
Proof.
  intros H. destruct s; cbn [sched next_stage count_incr stage_name] in *.
  - rewrite Nat.add_0_r, decide_False by lia. done.
  - destruct c as [|[|c]]; [reflexivity | reflexivity | lia].
  - rewrite Nat.add_0_r, decide_False by lia. done.
Qed.

Lemma sched_stop s c : 3 <= c + count_incr s → sched s c = [stage_name s].
Proof.
  intros H. destruct s; cbn [sched count_incr stage_name] in *.
  - by rewrite decide_True by lia.
  - assert (3 - c <= 1) by lia. destruct (3 - c) as [|[|k]]; [done | done | lia].
  - by rewrite decide_True by lia.
Qed.

Lemma extractions_cons s u cs :
  extractions ((stage_name s, u) :: cs) = count_incr s + extractions cs.
Proof.
  unfold extractions. rewrite fmap_cons, filter_cons.
  destruct s; cbn [stage_name count_incr fst];
    [rewrite decide_False by done | rewrite decide_True by done | rewrite decide_False by done];
    done.
Qed.

Context `{LM : LanguageModel}.

(** [exec_step_cases] unfolds one step of a run from stage [s] and names
    the new state's facts. *)
Ltac exec_step_cases Hc Hexec :=
  rewrite exec_stage in Hexec by exact Hc;
  let resp := fresh "resp" in let Hinv := fresh "Hinv" in
  destruct (invoke _) as [resp|?] eqn:Hinv; [|cbn in Hexec];
  [let st' := fresh "st'" in let n' := fresh "n'" in let Happ := fresh "Happ" in
   destruct (apply_update _ _ _) as [st' n'] eqn:Happ;
   let Hw := fresh "Hw" in
   pose proof (stage_write _ _ _ _ _ _ Hc Happ) as Hw;
   cbv beta iota in Hexec | ].

(** The senders of the chunks of any run from stage [s] form a
    prefix of the schedule [sched s c]: a run can stop early (a ["Yes"],
    a model failure) but never deviates from the order
    reader, extractor, validator, extractor, ... *)
Theorem exec_prefix f s st n :
  ids_canonical (messages st) n →
  (fst <$> (exec create_workflow f (stage_name s) st n).1) `prefix_of` sched s (get_count st).
Proof.
  revert s st n. induction f as [|f IH]; intros s st n Hc; [apply prefix_nil|].
  remember (exec create_workflow (S f) (stage_name s) st n) as run eqn:Hexec.
  symmetry in Hexec. exec_step_cases Hc Hexec; [|subst; apply prefix_nil].
  destruct Hw as (Hc' & _ & _ & _ & Hcnt).
  case_decide as Hstop.
  - subst run. destruct (sched_cons s (get_count st)) as [tl ->].
    apply prefix_cons, prefix_nil.
  - destruct (exec create_workflow f _ st' n') as [cs r] eqn:E. subst run.
    rewrite sched_step by (unfold stops in Hstop; lia). simpl. apply prefix_cons.
    specialize (IH (next_stage s) st' n' Hc'). by rewrite E, Hcnt in IH.
Qed.

(** A run given at least as many supersteps as its schedule is long
    fails only when a model call fails, with that very error: the router
    never raises, every path-map lookup hits, and [GraphRecursionError]
    is never raised. *)
Theorem exec_errors f s st n e :
  ids_canonical (messages st) n → length (sched s (get_count st)) <= f →
  (exec create_workflow f (stage_name s) st n).2 = Err e →
  ∃ req, invoke req = Err e.
Proof.
  revert s st n. induction f as [|f IH]; intros s st n Hc Hlen Herr.
  { destruct (sched_cons s (get_count st)) as [tl Htl]. rewrite Htl in Hlen. simpl in Hlen. lia. }
  remember (exec create_workflow (S f) (stage_name s) st n) as run eqn:Hexec.
  symmetry in Hexec. exec_step_cases Hc Hexec; [|subst; simpl in Herr; simplify_eq; eauto].
  destruct Hw as (Hc' & _ & _ & _ & Hcnt).
  case_decide as Hstop; [subst; discriminate|].
  destruct (exec create_workflow f _ st' n') as [cs r] eqn:E. subst run. simpl in Herr. subst r.
  apply (IH (next_stage s) st' n' Hc'); [|by rewrite E].
  rewrite sched_step in Hlen by (unfold stops in Hstop; lia). simpl in Hlen. rewrite Hcnt. lia.
Qed.

(** A run that completes has appended exactly the chunks' messages
    to the history, has raised the count by the number of extractor
    chunks, and has stopped on the router's condition: the count reached
    3 or the last message is ["Yes"]. *)
Theorem exec_final f s st n cs st' n' :
  ids_canonical (messages st) n →
  exec create_workflow f (stage_name s) st n = (cs, Ok (st', n')) →
  contents (messages st') = contents (messages st) ++ chunk_contents cs ∧
  get_count st' = get_count st + extractions cs ∧
  (3 <= get_count st' ∨ last_content st' = "Yes") ∧
  ids_canonical (messages st') n'.
Proof.
  revert s st n cs. induction f as [|f IH]; intros s st n cs Hc Hexec; [discriminate|].
  exec_step_cases Hc Hexec; [|discriminate].
  destruct Hw as (Hc1 & Hcont & (m & Hlast & Hm) & _ & Hcnt).
  case_decide as Hstop.
  - injection Hexec as <- <- <-. unfold chunk_contents. rewrite extractions_cons.
    rewrite Hcont, Hcnt. split_and!; [reflexivity | unfold extractions; simpl; lia | | done].
    unfold last_content. rewrite Hlast. simpl. unfold stops in Hstop. subst resp. tauto.
  - destruct (exec create_workflow f _ st'0 n'0) as [cs' r] eqn:E.
    injection Hexec as <- ->.
    destruct (IH _ _ _ _ Hc1 E) as (Hcont' & Hcnt' & Hend & Hc').
    rewrite extractions_cons. split_and!; [| rewrite Hcnt', Hcnt; lia | done | done].
    rewrite Hcont', Hcont, <- app_assoc. reflexivity.
Qed.

(** When the model never fails and never answers ["Yes"], a run
    given enough supersteps follows its whole schedule and completes. *)
Theorem exec_no_yes f s st n :
  ids_canonical (messages st) n → length (sched s (get_count st)) <= f →
  (∀ req, ∃ resp, invoke req = Ok resp ∧ resp ≠ "Yes") →
  fst <$> (exec create_workflow f (stage_name s) st n).1 = sched s (get_count st) ∧
  is_ok (exec create_workflow f (stage_name s) st n).2 = true.
Proof.
  intros Hc Hlen Hllm. revert s st n Hc Hlen. induction f as [|f IH]; intros s st n Hc Hlen.
  { destruct (sched_cons s (get_count st)) as [tl Htl]. rewrite Htl in Hlen. simpl in Hlen. lia. }
  remember (exec create_workflow (S f) (stage_name s) st n) as run eqn:Hexec.
  symmetry in Hexec. exec_step_cases Hc Hexec;
    [|destruct (Hllm (stage_request s st)) as (? & ? & _); congruence].
  destruct (Hllm (stage_request s st)) as (r0 & Hr0 & Hy). rewrite Hinv in Hr0. injection Hr0 as <-.
  destruct Hw as (Hc' & _ & _ & _ & Hcnt).
  case_decide as Hstop.
  - subst run. rewrite sched_stop by (unfold stops in Hstop; tauto). done.
  - destruct (exec create_workflow f _ st' n') as [cs r] eqn:E. subst run.
    rewrite sched_step in Hlen |- * by (unfold stops in Hstop; lia). simpl in Hlen |- *.
    destruct (IH (next_stage s) st' n' Hc') as [H1 H2]; [rewrite Hcnt; lia|].
    rewrite E in H1, H2. cbn [fst snd] in H1, H2 |- *. rewrite Hcnt in H1.
    split; [by f_equal | done].
Qed.

(** Every chunk a run emits is a node's dict: its sender is the node's
    name and it holds exactly one message, a string. *)
Definition chunk_ok (c : chunk) : Prop :=
  ∃ s resp, c.1 = stage_name s ∧ upd_sender c.2 = stage_name s ∧ upd_messages c.2 = [MsgStr resp].

Lemma exec_chunks f s st n :
  ids_canonical (messages st) n →
  Forall chunk_ok (exec create_workflow f (stage_name s) st n).1.
Proof.
  revert s st n. induction f as [|f IH]; intros s st n Hc; [constructor|].
  remember (exec create_workflow (S f) (stage_name s) st n) as run eqn:Hexec.
  symmetry in Hexec. exec_step_cases Hc Hexec; [|subst; constructor].
  destruct Hw as (Hc' & _).
  assert (Hok : chunk_ok (stage_name s, stage_update s st resp)) by (exists s, resp; done).
  case_decide.
  - subst run. repeat constructor; done.
  - destruct (exec create_workflow f _ st' n') as [cs r] eqn:E. subst run.
    constructor; [done|]. specialize (IH (next_stage s) st' n' Hc'). by rewrite E in IH.
Qed.

End Runs.

(** ** The runs [main] starts *)

(** The channels once [initial_state] is written: the document text is
    the first message, with id 0. *)
Definition input_written (raw : string) : AgentState :=
  {| messages := [Message raw (Some 0)]; sender := Some ""; count := Some 0 |}.

Definition full_schedule : list string :=
  ["reader"; "extractor"; "validator"; "extractor"; "validator"; "extractor"].

Section Stream.
Context `{LM : LanguageModel}.

Lemma stream_unfold raw :
  stream create_workflow (initial_state raw) =
    let '(cs, r) := exec create_workflow recursion_limit (stage_name Reader) (input_written raw) 1 in
    (cs, fst <$> r).
Proof. reflexivity. Qed.

Lemma input_canonical raw : ids_canonical (messages (input_written raw)) 1.
Proof. split; reflexivity. Qed.

Lemma extractions_prefix (cs : list chunk) :
  (fst <$> cs) `prefix_of` full_schedule → extractions cs <= 3.
Proof.
  intros [k Hk]. unfold extractions.
  assert (H := f_equal (λ l, length (filter (λ x, x = "extractor") l)) Hk).
  cbn beta in H. rewrite filter_app, length_app in H.
  assert (length (filter (λ x, x = "extractor") full_schedule) = 3) as H3 by reflexivity.
  lia.
Qed.

(** C1: whatever the model answers, the nodes a run of the program
    executes are, in order, a prefix of reader, extractor, validator,
    extractor, validator, extractor: never more than 6 stages, never a
    validation after the third extraction. *)
Theorem stream_schedule (raw : string) :
  (fst <$> (stream create_workflow (initial_state raw)).1) `prefix_of` full_schedule.
Proof.
  rewrite stream_unfold.
  pose proof (exec_prefix recursion_limit Reader _ _ (input_canonical raw)) as H.
  destruct (exec _ _ _ _ _) as [cs r]. exact H.
Qed.

(** C2: when the model never fails and never answers ["Yes"], a run
    executes exactly the 6 stages reader, extractor, validator,
    extractor, validator, extractor: the third extraction ends the run
    unvalidated, and the spec's bound of 7 stage calls is never met. *)
Theorem stream_six_stages (raw : string) :
  (∀ req, ∃ resp, invoke req = Ok resp ∧ resp ≠ "Yes") →
  fst <$> (stream create_workflow (initial_state raw)).1 = full_schedule.
Proof.
  intros Hllm. rewrite stream_unfold.
  pose proof (exec_no_yes recursion_limit Reader _ _ (input_canonical raw)) as H.
  destruct (exec _ _ _ _ _) as [cs r]. destruct H as [H _]; [vm_compute; lia | done | done].
Qed.

(** C3: a run of the program fails only with the error of a failing
    model call: the router never raises, no path map misses, and the
    recursion limit (25) is never reached. *)
Theorem stream_errors (raw : string) (e : error) :
  (stream create_workflow (initial_state raw)).2 = Err e → ∃ req, invoke req = Err e.
Proof.
  rewrite stream_unfold. intros Herr.
  pose proof (exec_errors recursion_limit Reader _ _ e (input_canonical raw)) as H.
  destruct (exec _ _ _ _ _) as [cs [[st n]|e']]; [discriminate|].
  injection Herr as ->. apply H; [vm_compute; lia | done].
Qed.

(** C4: when the model never fails, every run of the program completes:
    the stream is finite and ends without an exception. *)
Theorem stream_completes (raw : string) :
  (∀ req, ∃ resp, invoke req = Ok resp) →
  ∃ st, (stream create_workflow (initial_state raw)).2 = Ok st.
Proof.
  intros Hllm. rewrite stream_unfold.
  pose proof (λ e, exec_errors recursion_limit Reader _ _ e (input_canonical raw)) as H.
  destruct (exec _ _ _ _ _) as [cs [[st n]|e]]; [eauto|].
  destruct (H e) as [req Hreq]; [vm_compute; lia | done |].
  destruct (Hllm req) as [resp Hresp]. congruence.
Qed.

(** C7: the final state of a completed run holds the document text
    followed by the chunks' messages in order; its count is the number
    of extractions, at most 3; and the run stopped because the count
    reached 3 or the last message is ["Yes"]. *)
Theorem stream_final (raw : string) (cs : list chunk) (st : AgentState) :
  stream create_workflow (initial_state raw) = (cs, Ok st) →
  contents (messages st) = raw :: chunk_contents cs ∧
  get_count st = extractions cs ∧ get_count st <= 3 ∧
  (3 <= get_count st ∨ last_content st = "Yes").
Proof.
  rewrite stream_unfold. intros Hs.
  pose proof (exec_prefix recursion_limit Reader _ _ (input_canonical raw)) as Hpre.
  destruct (exec _ _ _ _ _) as [cs' [[st' n']|e]] eqn:E; [|discriminate].
  injection Hs as <- <-. simpl in Hpre.
  destruct (exec_final _ _ _ _ _ _ _ (input_canonical raw) E) as (Hc & Hn & Hend & _).
  pose proof (extractions_prefix _ Hpre). simpl in Hn.
  split_and!; [done | done | lia | done].
Qed.

Lemma stream_chunks raw : Forall chunk_ok (stream create_workflow (initial_state raw)).1.
Proof.
  rewrite stream_unfold.
  pose proof (exec_chunks recursion_limit Reader _ _ (input_canonical raw)) as H.
  destruct (exec _ _ _ _ _) as [cs r]. exact H.
Qed.

(** C8: a reader that answers exactly ["Yes"] ends the run at once: one
    chunk, no extraction, no validation (the spec's "premature
    termination" gap, present in the code). *)
Theorem stream_reader_yes (raw : string) :
  invoke (stage_request Reader (input_written raw)) = Ok "Yes" →
  stream create_workflow (initial_state raw) =
    ([("reader", stage_update Reader (input_written raw) "Yes")],
     Ok {| messages := [Message raw (Some 0); Message "Yes" (Some 1)];
           sender := Some "reader"; count := Some 0 |}).
Proof.
  intros Hyes. rewrite stream_unfold. unfold recursion_limit.
  rewrite exec_stage by apply input_canonical.
  rewrite Hyes. reflexivity.
Qed.

End Stream.

(** ** The step relation: soundness of [exec], refinement, bound *)

Section Refinement.

Lemma spec_route_stops msgs s c resp :
  spec_route (msgs ++ [resp]) (stage_name s) (c + count_incr s) =
    if decide (stops s c resp) then PTerminated else PStage (next_stage s).
Proof.
  unfold spec_route, stops. rewrite last_snoc.
  destruct (decide (3 <= c + count_incr s ∨ resp = "Yes")) as [Hs|Hs].
  - by rewrite decide_True by (destruct Hs as [? | ->]; auto).
  - rewrite decide_False by (intros [? | [= ?]]; auto). by destruct s.
Qed.

(** One step of the concrete graph from a stage: a model failure, or a
    model answer [resp] after which the run stops or goes to the next
    stage.  The router's and the path maps' failures cannot happen. *)
Lemma gstep_stage s st n c' :
  ids_canonical (messages st) n →
  gstep create_workflow (GRun (stage_name s) st n) c' →
  (∃ d, c' = GFail (ModelCallError d)) ∨
  ∃ resp st' n', apply_update st (stage_update s st resp) n = (st', n') ∧
    c' = if decide (stops s (get_count st) resp) then GDone st' n'
         else GRun (stage_name (next_stage s)) st' n'.
Proof.
  intros Hc Hstep. remember (GRun (stage_name s) st n) as c0 eqn:Ec.
  destruct Hstep as [node s0 st0 n0 resp st' n' dest Hn Happ Hb Hne
                    |node s0 st0 n0 resp st' n' Hn Happ Hb
                    |node s0 st0 n0 d Hn
                    |node s0 st0 n0 resp st' n' e Hn Happ Hb
                    |node st0 n0 Hn];
    injection Ec as -> -> ->; rewrite workflow_node in Hn; [injection Hn as <-..|discriminate].
  - rewrite (branch_after_stage _ _ _ _ _ _ Hc Happ) in Hb. injection Hb as <-.
    right. exists resp, st', n'. split; [done|].
    case_decide; [contradiction | done].
  - rewrite (branch_after_stage _ _ _ _ _ _ Hc Happ) in Hb. injection Hb as Hb.
    right. exists resp, st', n'. split; [done|].
    case_decide; [done|]. by destruct s.
  - left. eauto.
  - by rewrite (branch_after_stage _ _ _ _ _ _ Hc Happ) in Hb.
Qed.

(** One step of the graph from a stage is a failing model call or a
    step of the spec's controller on the abstraction. *)
Lemma gstep_abs_step (s : stage) (st : AgentState) (n : nat) (c' : gconf) :
  ids_canonical (messages st) n →
  gstep create_workflow (GRun (stage_name s) st n) c' →
  (∃ d, c' = GFail (ModelCallError d)) ∨
  ctrl_step (abs create_workflow (GRun (stage_name s) st n)) (abs create_workflow c').
Proof.
  intros Hc Hstep.
  destruct (gstep_stage _ _ _ _ Hc Hstep) as [Hf|(resp & st' & n' & Happ & ->)]; [by left|].
  right. destruct (stage_write _ _ _ _ _ _ Hc Happ) as (_ & Hcont & _ & Hsnd & Hcnt).
  pose proof (ctrl_run s (contents (messages st)) (default "" (sender st)) (get_count st) resp) as H.
  rewrite spec_route_stops in H.
  cbn [abs]. unfold abs_phase. rewrite workflow_node.
  case_decide; cbn [abs]; unfold abs_phase; rewrite ?workflow_node;
    rewrite Hcont, Hsnd, Hcnt; exact H.
Qed.

(** The invariant of configurations reached from a stage. *)
Definition ginv (c : gconf) : Prop :=
  match c with
  | GRun node st n => ids_canonical (messages st) n ∧ ∃ s, node = stage_name s
  | _ => True
  end.

Lemma rem_stage_pos s c : 1 <= rem_stage s c.
Proof. unfold rem_stage, rem_extractor. destruct s; try case_decide; lia. Qed.

Lemma gstep_measure c c' :
  ginv c → gstep create_workflow c c' →
  ctrl_measure (abs create_workflow c') < ctrl_measure (abs create_workflow c) ∧ ginv c'.
Proof.
  intros Hinv Hstep. destruct c as [node st n| |]; [|inversion Hstep..].
  destruct Hinv as [Hc [s ->]].
  destruct (gstep_stage _ _ _ _ Hc Hstep) as [[d ->]|(resp & st' & n' & Happ & Hc')].
  - assert (ctrl_measure (abs create_workflow (GRun (stage_name s) st n)) = rem_stage s (get_count st))
      as ->.
    { cbn [abs]. unfold abs_phase. rewrite workflow_node. reflexivity. }
    change (ctrl_measure (abs create_workflow (GFail (ModelCallError d)))) with 0.
    pose proof (rem_stage_pos s (get_count st)). split; [lia | done].
  - destruct (gstep_abs_step _ _ _ _ Hc Hstep) as [[d ->]|Hctrl]; [by destruct decide|].
    split; [by apply ctrl_measure_decreases|].
    destruct (stage_write _ _ _ _ _ _ Hc Happ) as (Hc1 & _). subst c'.
    case_decide; [done | split; [done | eauto]].
Qed.

(** C6: every sequence of steps of the concrete graph from the program's
    initial state has at most 6 steps, whatever the model answers: the
    pipeline terminates, within 6 model calls. *)
Theorem gsteps_bound (raw : string) (k : nat) (c : gconf) :
  nsteps (gstep create_workflow) k (GRun "reader" (input_written raw) 1) c → k <= 6.
Proof.
  intros Hk.
  assert (Hgen : ∀ k c0 c1, nsteps (gstep create_workflow) k c0 c1 → ginv c0 →
                 k <= ctrl_measure (abs create_workflow c0)).
  { clear. induction 1 as [|k' c0 c1 c2 Hstep _ IH]; intros Hinv; [lia|].
    destruct (gstep_measure _ _ Hinv Hstep) as [Hlt Hinv']. specialize (IH Hinv'). lia. }
  apply Hgen in Hk; [exact Hk|]. split; [apply input_canonical | by exists Reader].
Qed.

(** C5: refinement.  Every run of the LangGraph execution of the graph
    from the program's initial state that has not failed on a model call
    is, on the abstraction of its configurations (message contents,
    sender, count), a run of the spec's controller (section 4.2) from the
    state the spec creates for the document, with one more step (the
    Start step): the graph built by [create_workflow], with [router] and
    the reducer, implements the controller. *)
Theorem gstep_refines (raw : string) (k : nat) (c : gconf) :
  nsteps (gstep create_workflow) k (GRun "reader" (input_written raw) 1) c →
  (∀ e, c ≠ GFail e) →
  nsteps ctrl_step (S k) (ctrl_init raw) (abs create_workflow c).
Proof.
  intros Hk Hnf. eapply nsteps_l; [apply ctrl_start|].
  change (Ctrl (PStage Reader) [raw] "" 0)
    with (abs create_workflow (GRun "reader" (input_written raw) 1)).
  assert (Hinv : ginv (GRun "reader" (input_written raw) 1))
    by (split; [apply input_canonical | by exists Reader]).
  clear -Hk Hnf Hinv. induction Hk as [c0|k' c0 c1 c2 Hstep Hrest IH]; [apply nsteps_O|].
  destruct c0 as [node st n| |]; [|inversion Hstep..].
  destruct Hinv as [Hc [s ->]].
  destruct (gstep_abs_step _ _ _ _ Hc Hstep) as [[d ->]|Hctrl].
  - exfalso. inversion Hrest as [|? ? ? ? Hs']; subst; [by apply (Hnf (ModelCallError d)) | inversion Hs'].
  - eapply nsteps_l; [exact Hctrl|]. apply IH; [done|].
    assert (Hg : ginv (GRun (stage_name s) st n)) by (split; [done | by exists s]).
    exact (proj2 (gstep_measure _ _ Hg Hstep)).
Qed.

(** The interpreter runs along the step relation: a completed run of
    [exec] that emitted [k] chunks is a sequence of [k] steps of [gstep]
    from its first node to its final state, for any graph. *)
Theorem exec_sound `{LM : LanguageModel} (g : graph) f node st n cs st' n' :
  exec g f node st n = (cs, Ok (st', n')) →
  nsteps (gstep g) (length cs) (GRun node st n) (GDone st' n').
Proof.
  revert node st n cs. induction f as [|f IH]; intros node st n cs Hexec; [discriminate|].
  cbn [exec] in Hexec.
  destruct (g_nodes g !! node) as [s|] eqn:Hn; [|discriminate].
  rewrite stage_call_eq in Hexec.
  destruct (invoke (stage_request s st)) as [resp|e]; [|discriminate]. rewrite bind_Ok in Hexec.
  destruct (apply_update st (stage_update s st resp) n) as [st1 n1] eqn:Happ.
  destruct (branch_target g node st1) as [dest|e] eqn:Hb; [|discriminate].
  case_decide as Hend.
  - injection Hexec as <- <- <-. subst dest. apply nsteps_once.
    by eapply gstep_end.
  - destruct (exec g f dest st1 n1) as [cs' r] eqn:E. injection Hexec as <- ->.
    eapply nsteps_l; [by eapply gstep_next | by apply IH].
Qed.

End Refinement.

(** Every run of [main]'s stream that completes is a run of the
    step relation on the program's graph: as many steps as chunks, from
    the input state to the final state. *)
Theorem stream_sound `{LM : LanguageModel} (raw : string) cs st :
  stream create_workflow (initial_state raw) = (cs, Ok st) →
  ∃ n, nsteps (gstep create_workflow) (length cs) (GRun "reader" (input_written raw) 1) (GDone st n).
Proof.
  rewrite stream_unfold. destruct (exec _ _ _ _ _) as [cs0 r] eqn:E. intros [= <- Hr].
  destruct r as [[st' n]|e]; [|discriminate]. injection Hr as <-. exists n. by eapply exec_sound.
Qed.

(** ** Witnesses *)

(** Three models to run the program with: corrections forever, approval
    at once, a transport failure. *)
Definition never_yes_model : LanguageModel := λ _, Ok "- Missing phone number".
Definition always_yes_model : LanguageModel := λ _, Ok "Yes".
Definition failing_model : LanguageModel := λ _, Err (ModelCallError "timeout").

Lemma stream_six_stages_witness :
  fst <$> (@stream never_yes_model create_workflow (initial_state "cv")).1 = full_schedule.
Proof.
  apply (@stream_six_stages never_yes_model "cv").
  intros req. exists "- Missing phone number". split; [reflexivity | discriminate].
Defined.

Lemma stream_errors_witness :
  ∃ req, @invoke failing_model req = Err (ModelCallError "timeout").
Proof. apply (@stream_errors failing_model "cv"). vm_compute. reflexivity. Defined.

Lemma stream_completes_witness :
  ∃ st, (@stream never_yes_model create_workflow (initial_state "cv")).2 = Ok st.
Proof.
  apply (@stream_completes never_yes_model "cv").
  intros req. eexists. reflexivity.
Defined.

Lemma stream_final_witness :
  ∃ cs st, @stream never_yes_model create_workflow (initial_state "cv") = (cs, Ok st) ∧
    get_count st = extractions cs ∧ extractions cs = 3.
Proof.
  set (r := @stream never_yes_model create_workflow (initial_state "cv")).
  exists r.1, (match r.2 with Ok st => st | Err _ => empty_state end).
  assert (H : r = (r.1, Ok (match r.2 with Ok st => st | Err _ => empty_state end)))
    by (vm_compute; reflexivity).
  split; [exact H|]. split.
  - exact (proj1 (proj2 (@stream_final never_yes_model "cv" _ _ H))).
  - vm_compute. reflexivity.
Defined.

Lemma stream_reader_yes_witness :
  (@stream always_yes_model create_workflow (initial_state "cv")).1
    = [("reader", stage_update Reader (input_written "cv") "Yes")].
Proof. rewrite (@stream_reader_yes always_yes_model "cv"); reflexivity. Defined.

(** The first step of a run: the reader answers, the edge leads to the
    extractor. *)
Definition reader_done : AgentState :=
  {| messages := [Message "cv" (Some 0); Message "norm" (Some 1)];
     sender := Some "reader"; count := Some 0 |}.

Lemma first_step :
  gstep create_workflow (GRun "reader" (input_written "cv") 1) (GRun "extractor" reader_done 2).
Proof.
  apply (gstep_next _ _ Reader _ _ "norm"); [reflexivity | reflexivity | reflexivity | discriminate].
Qed.

Lemma gstep_refines_witness :
  nsteps ctrl_step 2 (ctrl_init "cv") (abs create_workflow (GRun "extractor" reader_done 2)).
Proof.
  apply (gstep_refines "cv" 1 (GRun "extractor" reader_done 2)).
  - apply nsteps_once, first_step.
  - discriminate.
Defined.

Lemma gsteps_bound_witness : 1 <= 6.
Proof. apply (gsteps_bound "cv" 1 (GRun "extractor" reader_done 2)). apply nsteps_once, first_step. Defined.

Lemma exec_sound_witness :
  ∃ cs st n, @exec never_yes_model create_workflow 25 "reader" (input_written "cv") 1 = (cs, Ok (st, n)) ∧
    nsteps (gstep create_workflow) 6 (GRun "reader" (input_written "cv") 1) (GDone st n).
Proof.
  set (r := @exec never_yes_model create_workflow 25 "reader" (input_written "cv") 1).
  set (fin := match r.2 with Ok p => p | Err _ => (empty_state, 0) end).
  exists r.1, fin.1, fin.2.
  assert (H : r = (r.1, Ok (fin.1, fin.2))) by (vm_compute; reflexivity).
  split; [exact H|].
  pose proof (@exec_sound never_yes_model create_workflow _ _ _ _ _ _ _ H) as Hs.
  exact Hs.
Defined.
