(* ===== verification/Checkpoint.v ===== *)
(** * The checkpointer: [MemorySaver] and [main]'s thread

    [create_workflow] ends with [memory = MemorySaver()] and
    [app = workflow.compile(checkpointer=memory)], and [main] streams with
    [config = {"configurable": {"thread_id": "abc"}}].  A compiled graph
    with a checkpointer loads the latest checkpoint of the config's
    thread before a run and then saves, on that thread:
    - the input checkpoint ([metadata["step"]] one more than the loaded
      one, [-1] on a fresh thread): the loaded channel values, with the
      input waiting in the [__start__] channel;
    - the checkpoint after the [__start__] task, which writes the input
      through the channels' reducers into the loaded values;
    - one checkpoint after every superstep whose node and conditional
      edge succeeded (a task that raises commits nothing).

    The checkpointer is the interface [Checkpointer] (a fresh saver, the
    latest checkpoint of a thread, saving one) with its laws
    [CheckpointerLaws]; [MemorySaver] implements it with the whole
    history of each thread, latest first.  A checkpoint holds the channel
    values, the id counter that stands for [uuid4] (see [Messages]), the
    [__start__] channel and the step.  [exec_ck] is [exec] with the
    saves; [stream_ck] is [app.stream(input, config)].  The theorems: the
    saves do not change what is streamed; a run on a thread without a
    checkpoint is the plain [stream]; a run on a thread with one starts
    from it; what the saver holds after a run of [main]. *)

From stdpp Require Import base list strings gmap.
From Stdlib Require Import ZArith.
From S2P Require Import Prelude Messages Router Agents Workflow.
Open Scope string_scope.
Open Scope list_scope.

(** ** The interface *)

(** A checkpoint: the values of the channels [messages], [sender] and
    [count], the id counter, the [__start__] channel (the input not yet
    written, only in the input checkpoint) and [metadata["step"]]. *)
Record checkpoint := Checkpoint {
  cp_state : AgentState;
  cp_next : nat;
  cp_start : option update;
  cp_step : Z
}.

Class Checkpointer (S : Type) := {
  ck_new : S;                                      (** [MemorySaver()] *)
  ck_get : S → string → option checkpoint;         (** [get_tuple(config)] *)
  ck_put : S → string → checkpoint → S             (** [put(config, checkpoint, ...)] *)
}.

Class CheckpointerLaws (S : Type) `{Checkpointer S} := {
  ck_get_new t : ck_get ck_new t = None;
  ck_get_put_eq sv t c : ck_get (ck_put sv t c) t = Some c;
  ck_get_put_ne sv t t' c : t ≠ t' → ck_get (ck_put sv t c) t' = ck_get sv t'
}.

(** ** [MemorySaver] *)

(** [MemorySaver.storage]: for each thread, its checkpoints, latest
    first (the namespace is always [""] here). *)
Abbreviation MemorySaver := (gmap string (list checkpoint)).

Definition thread_history (sv : MemorySaver) (t : string) : list checkpoint :=
  default [] (sv !! t).

#[global] Instance memory_saver : Checkpointer MemorySaver := {
  ck_new := (∅ : gmap string (list checkpoint));
  ck_get sv t := head (thread_history sv t);
  ck_put sv t c := <[t := c :: thread_history sv t]> sv
}.

#[global] Instance memory_saver_laws : CheckpointerLaws MemorySaver.
Proof.
  split.
  - intros t. change (head (default [] ((∅ : MemorySaver) !! t)) = None).
    by rewrite lookup_empty.
  - intros sv t c. change (head (default [] (<[t := c :: thread_history sv t]> sv !! t)) = Some c).
    by rewrite lookup_insert_eq.
  - intros sv t t' c Hne.
    change (head (default [] (<[t := c :: thread_history sv t]> sv !! t')) = head (thread_history sv t')).
    by rewrite lookup_insert_ne.
Qed.

(** ** The compiled graph and the config *)

Record compiled (S : Type) := Compiled { app_graph : graph; app_saver : S }.
Arguments Compiled {S} _ _.
Arguments app_graph {S} _.
Arguments app_saver {S} _.

Record config := Config { thread_id : string }.

(** The value of [create_workflow()]: the graph compiled with a fresh
    [MemorySaver]. *)
Definition compiled_workflow : compiled MemorySaver := Compiled create_workflow ck_new.

(** [config = {"configurable": {"thread_id": "abc"}}]; it sets no
    [recursion_limit], so LangGraph's default [recursion_limit] holds. *)
Definition main_config : config := Config "abc".

(** ** Execution with checkpoints *)

Section ExecCk.
Context `{LM : LanguageModel} {Sv : Type} `{CK : Checkpointer Sv}.
Variable g : graph.
Variable t : string.

(** [exec], saving the channel values after every superstep that
    committed, with its step number: a node or edge that raises commits
    nothing. *)
Fixpoint exec_ck (fuel : nat) (node : string) (st : AgentState) (next : nat) (step : Z) (sv : Sv)
    : list chunk * result (AgentState * nat) * Sv :=
  match fuel with
  | 0 => ([], raise GraphRecursionError, sv)
  | S fuel' =>
      match g_nodes g !! node with
      | None => ([], raise (KeyError node), sv)
      | Some s =>
          match stage_call s st with
          | Err e => ([], Err e, sv)
          | Ok u =>
              let '(st', next') := apply_update st u next in
              match branch_target g node st' with
              | Err e => ([], Err e, sv)
              | Ok dest =>
                  let sv' := ck_put sv t (Checkpoint st' next' None step) in
                  if decide (dest = END) then ([(node, u)], Ok (st', next'), sv')
                  else
                    let '(cs, r, sv'') := exec_ck fuel' dest st' next' (step + 1)%Z sv' in
                    ((node, u) :: cs, r, sv'')
              end
          end
      end
  end.

End ExecCk.

Section StreamCk.
Context `{LM : LanguageModel} {Sv : Type} `{CK : Checkpointer Sv}.

(** [app.stream(input, config)]: load the thread's latest checkpoint
    (empty channels and step [-2] when there is none), save the input
    checkpoint, run the [__start__] task (the input written through the
    reducers) and save, then run the graph from the entry node. *)
Definition stream_ck (app : compiled Sv) (cfg : config) (inp : update)
    : list chunk * result AgentState * compiled Sv :=
  let t := thread_id cfg in
  let saved := ck_get (app_saver app) t in
  let '(st_prev, n_prev) := from_option (λ c, (cp_state c, cp_next c)) (empty_state, 0) saved in
  let step := from_option (λ c, cp_step c + 1)%Z (-1)%Z saved in
  let sv1 := ck_put (app_saver app) t (Checkpoint st_prev n_prev (Some inp) step) in
  let '(st0, n0) := apply_update st_prev inp n_prev in
  let sv2 := ck_put sv1 t (Checkpoint st0 n0 None (step + 1)) in
  let '(cs, r, sv') :=
    exec_ck (app_graph app) t recursion_limit (g_entry (app_graph app)) st0 n0 (step + 2)%Z sv2 in
  (cs, fst <$> r, Compiled (app_graph app) sv').

End StreamCk.

(** ** The saves do not change the run *)

(** [exec_ck_cases] opens one superstep of [exec_ck] (and of [exec]),
    closing the branches where the superstep raises. *)
Ltac exec_ck_stop := done || (by exists []; split).

Ltac exec_ck_cases :=
  cbn [exec_ck exec];
  repeat match goal with
  | |- context [match g_nodes ?g !! ?node with _ => _ end] =>
      destruct (g_nodes g !! node); [|exec_ck_stop]
  | |- context [match stage_call ?s ?st with _ => _ end] =>
      destruct (stage_call s st); [|exec_ck_stop]
  | |- context [let '(_, _) := apply_update ?st ?u ?n in _] =>
      destruct (apply_update st u n)
  | |- context [match branch_target ?g ?node ?st with _ => _ end] =>
      destruct (branch_target g node st); [|exec_ck_stop]
  end.

(** [exec_ck_rec IH] names the recursive run of a superstep that did
    not end and specialises the induction hypothesis to it. *)
Ltac exec_ck_rec IH :=
  match goal with |- context [exec_ck ?g ?t ?f ?d ?st' ?n' ?step' ?sv'] =>
    specialize (IH d st' n' step' sv'); destruct (exec_ck g t f d st' n' step' sv') as [[? ?] ?]
  end.

Section CkProps.
Context `{LM : LanguageModel} {Sv : Type} `{CK : Checkpointer Sv}.

(** A compiled graph with a checkpointer streams exactly the chunks and
    ends exactly as the graph without one: checkpointing is invisible in
    the output. *)
Theorem exec_ck_exec (g : graph) (t : string) f node st n step (sv : Sv) :
  (exec_ck g t f node st n step sv).1 = exec g f node st n.
Proof.
  revert node st n step sv. induction f as [|f IH]; intros node st n step sv; [done|].
  exec_ck_cases. case_decide; [done|].
  match goal with |- context [exec_ck g t f ?d ?st' ?n' ?step' ?sv'] =>
    specialize (IH d st' n' step' sv');
    destruct (exec_ck g t f d st' n' step' sv') as [[cs r] sv''];
    destruct (exec g f d st' n') as [cs' r'] end.
  simpl in IH |- *. congruence.
Qed.

Lemma stream_ck_unfold (app : compiled Sv) (cfg : config) (inp : update) :
  (stream_ck app cfg inp).1 =
    let '(st_prev, n_prev) :=
      from_option (λ c, (cp_state c, cp_next c)) (empty_state, 0) (ck_get (app_saver app) (thread_id cfg)) in
    let '(st0, n0) := apply_update st_prev inp n_prev in
    let '(cs, r) := exec (app_graph app) recursion_limit (g_entry (app_graph app)) st0 n0 in
    (cs, fst <$> r).
Proof.
  unfold stream_ck. destruct (from_option _ _ _) as [sp np].
  destruct (apply_update sp inp np) as [st0 n0].
  match goal with |- context [exec_ck ?g ?t ?f ?e st0 n0 ?step ?sv] =>
    rewrite <- (exec_ck_exec g t f e st0 n0 step sv); by destruct (exec_ck g t f e st0 n0 step sv) as [[cs r] sv'] end.
Qed.

(** A thread without a checkpoint runs from the empty channels: the run
    is the plain [stream]. *)
Lemma stream_ck_fresh (app : compiled Sv) (cfg : config) (inp : update) :
  ck_get (app_saver app) (thread_id cfg) = None →
  (stream_ck app cfg inp).1 = stream (app_graph app) inp.
Proof. intros H. rewrite stream_ck_unfold, H. reflexivity. Qed.

Context `{!CheckpointerLaws Sv}.

(** A run saves only under its own thread: the latest checkpoint of
    every other thread is the one it had before the run. *)
Lemma exec_ck_frame g t t' f node st n step sv :
  t ≠ t' → ck_get (exec_ck g t f node st n step sv).2 t' = ck_get sv t'.
Proof.
  intros Hne. revert node st n step sv. induction f as [|f IH]; intros node st n step sv; [done|].
  exec_ck_cases. case_decide; [by apply ck_get_put_ne|].
  exec_ck_rec IH. simpl in IH |- *. by rewrite IH, ck_get_put_ne.
Qed.

(** A run that completes leaves its final channel values as the
    thread's latest checkpoint, with the step of its last superstep. *)
Lemma exec_ck_latest g t f node st n step sv st' n' :
  (exec_ck g t f node st n step sv).1.2 = Ok (st', n') →
  ck_get (exec_ck g t f node st n step sv).2 t =
    Some (Checkpoint st' n' None (step + Z.of_nat (length (exec_ck g t f node st n step sv).1.1) - 1)).
Proof.
  revert node st n step sv. induction f as [|f IH]; intros node st n step sv; [discriminate|].
  exec_ck_cases. case_decide.
  - intros [= <- <-]. cbn [fst snd length]. rewrite ck_get_put_eq. do 3 f_equal. lia.
  - exec_ck_rec IH. cbn [fst snd length] in IH |- *. intros Hr.
    rewrite (IH Hr). do 3 f_equal. lia.
Qed.

End CkProps.

(** [MemorySaver] keeps one checkpoint per committed superstep, in
    front of the thread's earlier ones. *)
Lemma thread_history_put (sv : MemorySaver) t c :
  thread_history (ck_put sv t c) t = c :: thread_history sv t.
Proof. unfold thread_history at 1. cbn. by rewrite lookup_insert_eq. Qed.

Lemma thread_history_new t : thread_history ck_new t = [].
Proof. unfold thread_history. change ((∅ : MemorySaver) !! t) with (@None (list checkpoint)). done. Qed.

Lemma exec_ck_history `{LM : LanguageModel} g t f node st n step (sv : MemorySaver) :
  ∃ l, thread_history (exec_ck g t f node st n step sv).2 t = l ++ thread_history sv t ∧
       length l = length (exec_ck g t f node st n step sv).1.1.
Proof.
  revert node st n step sv. induction f as [|f IH]; intros node st n step sv; [by exists []|].
  exec_ck_cases. case_decide.
  - cbn [fst snd length]. rewrite thread_history_put. by eexists [_].
  - exec_ck_rec IH. destruct IH as (hs & Hl & Hlen). cbn [fst snd length] in Hl, Hlen |- *.
    rewrite thread_history_put in Hl. match type of Hl with _ = _ ++ ?c :: _ => exists (hs ++ [c]) end.
    rewrite <- app_assoc, length_app, Hlen. cbn [length app]. split; [done | lia].
Qed.

(** ** The runs of [main] *)

Section MainRuns.
Context `{LM : LanguageModel}.

(** The two checkpoints a run of [main] saves before the reader runs:
    the input checkpoint (step [-1], empty channels, the input in
    [__start__]) and the one after [__start__] (step [0]). *)
Definition main_start_checkpoints (raw : string) : list checkpoint :=
  [Checkpoint (input_written raw) 1 None 0; Checkpoint empty_state 0 (Some (initial_state raw)) (-1)].

Lemma main_stream_unfold (raw : string) :
  stream_ck compiled_workflow main_config (initial_state raw) =
    let '(cs, r, sv') :=
      exec_ck create_workflow "abc" recursion_limit (stage_name Reader) (input_written raw) 1 1
        (ck_put (ck_put ck_new "abc" (Checkpoint empty_state 0 (Some (initial_state raw)) (-1)))
           "abc" (Checkpoint (input_written raw) 1 None 0)) in
    (cs, fst <$> r, Compiled create_workflow sv').
Proof. reflexivity. Qed.

(** Every click of "Start Processing" builds a new compiled graph with a
    new [MemorySaver], so the run on thread ["abc"] starts from empty
    channels: it streams what the graph without checkpointer streams. *)
Lemma main_stream_isolated (inp : update) :
  (stream_ck compiled_workflow main_config inp).1 = stream create_workflow inp.
Proof. apply stream_ck_fresh, ck_get_new. Qed.

(** C31: after a run of [main], the saver's history of thread ["abc"]
    is, oldest first, the input checkpoint (step -1: empty channels, the
    input in [__start__]), the checkpoint after [__start__] (step 0: the
    input written), and one checkpoint per streamed chunk, at most 6 of
    them and 8 checkpoints in all; a run that completed left its final
    state as the latest checkpoint, at the step of its last chunk. *)
Theorem main_saver_after_run (raw : string) cs r (app' : compiled MemorySaver) :
  stream_ck compiled_workflow main_config (initial_state raw) = (cs, r, app') →
  ∃ l, thread_history (app_saver app') "abc" = l ++ main_start_checkpoints raw ∧
    length l = length cs ∧ length cs <= 6 ∧
    (∀ st, r = Ok st → ∃ n, ck_get (app_saver app') "abc" = Some (Checkpoint st n None (Z.of_nat (length cs)))).
Proof.
  rewrite main_stream_unfold.
  set (sv0 := ck_put (ck_put ck_new "abc" _) "abc" _).
  pose proof (exec_ck_exec create_workflow "abc" recursion_limit (stage_name Reader) (input_written raw) 1 1 sv0) as Hex.
  pose proof (exec_ck_history create_workflow "abc" recursion_limit (stage_name Reader) (input_written raw) 1 1 sv0) as Hh.
  pose proof (exec_ck_latest create_workflow "abc" recursion_limit (stage_name Reader) (input_written raw) 1 1 sv0) as Hl.
  pose proof (exec_prefix recursion_limit Reader _ _ (input_canonical raw)) as Hp.
  destruct (exec_ck _ _ _ _ _ _ _ _) as [[cs0 r0] sv'] eqn:E. intros [= <- <- <-].
  rewrite <- Hex in Hp. apply prefix_length in Hp. rewrite length_fmap in Hp.
  cbn [fst snd app_saver] in *. destruct Hh as (l & Hh & Hlen).
  exists l. split_and!; [| done | change (length cs0 <= 6) in Hp; lia |].
  - rewrite Hh. subst sv0. by rewrite !thread_history_put, thread_history_new.
  - intros st Hr. destruct r0 as [[st' n']|e]; [|discriminate].
    injection Hr as <-. exists n'. rewrite (Hl _ _ eq_refl). do 3 f_equal. lia.
Qed.

(** C32: a compiled graph is not reusable across documents on a fixed
    thread: a second [stream] on the app a completed run left behind,
    with thread ["abc"] again, starts from the first run's whole history
    followed by the new document (the count and sender are reset by the
    input).  [main] avoids this only by rebuilding the graph on every
    click ([main_stream_isolated]). *)
Theorem reused_app_resumes (raw1 raw2 : string) cs1 st1 (app1 : compiled MemorySaver) :
  stream_ck compiled_workflow main_config (initial_state raw1) = (cs1, Ok st1, app1) →
  ∃ st0 n0,
    contents (messages st0) = contents (messages st1) ++ [raw2] ∧
    sender st0 = Some "" ∧ get_count st0 = 0 ∧
    (stream_ck app1 main_config (initial_state raw2)).1 =
      (let '(cs, r) := exec create_workflow recursion_limit (stage_name Reader) st0 n0 in
       (cs, fst <$> r)).
Proof.
  rewrite main_stream_unfold.
  set (sv0 := ck_put (ck_put ck_new "abc" _) "abc" _).
  pose proof (exec_ck_exec create_workflow "abc" recursion_limit (stage_name Reader) (input_written raw1) 1 1 sv0) as Hex.
  pose proof (exec_ck_latest create_workflow "abc" recursion_limit (stage_name Reader) (input_written raw1) 1 1 sv0) as Hl.
  destruct (exec_ck _ _ _ _ _ _ _ _) as [[cs0 r0] sv'] eqn:E. intros [= <- Hr <-].
  destruct r0 as [[st1' n1]|e]; [|discriminate]. injection Hr as <-.
  cbn [fst snd] in Hex, Hl. specialize (Hl _ _ eq_refl).
  destruct (exec_final _ _ _ _ _ _ _ (input_canonical raw1) (eq_sym Hex)) as (_ & _ & _ & Hcan).
  rewrite stream_ck_unfold. cbn [app_saver app_graph thread_id main_config]. rewrite Hl.
  cbn [from_option cp_state cp_next]. destruct (apply_update st1' (initial_state raw2) n1) as [st0 n0] eqn:Ha.
  assert (Hf : id_free (upd_messages (initial_state raw2))) by (unfold id_free; repeat constructor).
  destruct (apply_update_spec _ _ _ _ _ Hcan Hf Ha) as (Hc & _ & Hs & Hcnt).
  exists st0, n0. split_and!; [by rewrite Hc | done | by unfold get_count; rewrite Hcnt | reflexivity].
Qed.

End MainRuns.

(** ** Witnesses *)

Lemma main_saver_after_run_witness :
  ∃ cs r (app' : compiled MemorySaver),
    @stream_ck never_yes_model _ _ compiled_workflow main_config (initial_state "cv") = (cs, r, app') ∧
    ∃ l, thread_history (app_saver app') "abc" = l ++ main_start_checkpoints "cv" ∧ length l = length cs.
Proof.
  eexists _, _, _. split; [reflexivity|].
  destruct (@main_saver_after_run never_yes_model "cv" _ _ _ eq_refl) as (l & H1 & H2 & _).
  exists l. split; [exact H1 | exact H2].
Defined.

Lemma reused_app_resumes_witness :
  ∃ cs1 st1 (app1 : compiled MemorySaver),
    @stream_ck never_yes_model _ _ compiled_workflow main_config (initial_state "cv") = (cs1, Ok st1, app1) ∧
    ∃ st0 (n0 : nat), contents (messages st0) = contents (messages st1) ++ ["cv2"] ∧ get_count st0 = 0.
Proof.
  eexists _, _, _. split; [reflexivity|].
  destruct (@reused_app_resumes never_yes_model "cv" "cv2" _ _ _ eq_refl) as (st0 & n0 & H1 & _ & H2 & _).
  exists st0, n0. split; [exact H1 | exact H2].
Defined.
