(* ===== verification/Invariants.v ===== *)
(** * Invariants of the shared state along a run

    The state LangGraph hands to a node is a dict; [AgentState] declares
    its keys [messages: Sequence[BaseMessage]], [sender: str] and
    [count: int].  [state_typed] says a state respects that declaration
    and what the nodes and the router read from it: the three keys are
    present, [messages[-1]] exists, and the ids the reducer assigned are
    0, 1, ..., n-1.  The theorems state, for every configuration of
    [gstep] reachable from the state [main] creates:
    - the state is typed, the node about to run is the one the router
      and the path maps choose for the node that wrote [sender] (the
      reader for the input), and [count] is at most 3, below 3 while a
      node is still to run (the retry ceiling of [router]);
    - one step appends exactly one message, makes [sender] the node that
      wrote it, and adds one to [count] exactly when that node is the
      extractor (section 3 of the spec);
    - along any further steps the history only grows (no message is
      replaced or removed) and [count] never decreases. *)

From stdpp Require Import base list strings gmap relations.
From S2P Require Import Prelude Messages Router Agents Workflow.
Open Scope string_scope.
Open Scope list_scope.

Definition state_typed (st : AgentState) (n : nat) : Prop :=
  messages st ≠ [] ∧ sender st ≠ None ∧ count st ≠ None ∧ ids_canonical (messages st) n.

(** The state of a configuration that has not failed. *)
Definition conf_state (c : gconf) : option (AgentState * nat) :=
  match c with
  | GRun _ st n | GDone st n => Some (st, n)
  | GFail _ => None
  end.

(** The node a run continues with after the node that wrote [sender]:
    the table of [router] (workflow.py:20-27) composed with the three
    path maps of [create_workflow]; the input's sender [""] stands for
    the entry edge [START -> "reader"]. *)
Definition node_after (snd : option string) : string :=
  match snd with
  | Some "reader" => "extractor"
  | Some "extractor" => "validator"
  | Some "validator" => "extractor"
  | _ => "reader"
  end.

Definition conf_inv (c : gconf) : Prop :=
  match c with
  | GRun node st n => state_typed st n ∧ node = node_after (sender st) ∧ get_count st < 3
  | GDone st n => state_typed st n ∧ get_count st <= 3
  | GFail _ => True
  end.

Section Invariants.

Lemma workflow_node_inv node s :
  g_nodes create_workflow !! node = Some s → node = stage_name s.
Proof.
  cbn [g_nodes create_workflow].
  rewrite !lookup_insert_Some, lookup_singleton_Some. naive_solver.
Qed.

Lemma apply_update_keys st u n st' n' :
  apply_update st u n = (st', n') → sender st' = Some (upd_sender u) ∧ count st' = Some (upd_count u).
Proof. unfold apply_update. destruct (add_messages _ _ _). by intros [= <- _]. Qed.

(** A step from a node that has not failed: which stage ran, what it
    appended, and the keys it wrote. *)
Lemma gstep_effect node st n c' st' n' :
  ids_canonical (messages st) n →
  gstep create_workflow (GRun node st n) c' → conf_state c' = Some (st', n') →
  ∃ s resp, node = stage_name s ∧
    contents (messages st') = contents (messages st) ++ [resp] ∧
    sender st' = Some node ∧ count st' = Some (get_count st + count_incr s) ∧
    ids_canonical (messages st') n' ∧
    (c' = GDone st' n' ∨
     (c' = GRun (stage_name (next_stage s)) st' n' ∧ get_count st + count_incr s < 3)).
Proof.
  intros Hc Hstep Hst.
  assert (∃ s, node = stage_name s) as [s ->]
    by (inversion Hstep; subst; try discriminate; eauto using workflow_node_inv).
  destruct (gstep_stage _ _ _ _ Hc Hstep) as [[d ->]|(resp & st1 & n1 & Happ & ->)]; [discriminate|].
  destruct (stage_write _ _ _ _ _ _ Hc Happ) as (Hc1 & Hcont & _ & Hsnd & _).
  destruct (apply_update_keys _ _ _ _ _ Happ) as [_ Hcnt].
  exists s, resp. case_decide as Hstop; injection Hst as <- <-; split_and!; eauto.
  right. split; [done|]. apply Decidable.not_or in Hstop as [Hstop _]. lia.
Qed.

Lemma node_after_stage s : node_after (Some (stage_name s)) = stage_name (next_stage s).
Proof. by destruct s. Qed.

Lemma state_typed_step node st n c' st' n' :
  ids_canonical (messages st) n →
  gstep create_workflow (GRun node st n) c' → conf_state c' = Some (st', n') →
  state_typed st' n'.
Proof.
  intros Hc Hstep Hst.
  destruct (gstep_effect _ _ _ _ _ _ Hc Hstep Hst) as (s & resp & _ & Hcont & Hs & Hcnt & Hc' & _).
  split_and!; [| congruence | congruence | done].
  intros Hnil. rewrite Hnil in Hcont. by destruct (contents (messages st)).
Qed.

Lemma conf_inv_step c c' : conf_inv c → gstep create_workflow c c' → conf_inv c'.
Proof.
  intros Hinv Hstep. destruct c as [node st n| |]; [|inversion Hstep..].
  destruct Hinv as [(_ & _ & _ & Hc) [_ Hlt]].
  destruct c' as [node' st' n'|st' n'|e]; [| |done];
    destruct (gstep_effect _ _ _ _ _ _ Hc Hstep eq_refl) as (s & _ & -> & _ & Hs & Hcnt & _ & Hc');
    (split; [by eapply state_typed_step|]); unfold get_count at 1; rewrite Hcnt; cbn [default from_option id].
  - destruct Hc' as [?|[[= ->] Hlt']]; [discriminate|].
    by rewrite Hs, node_after_stage.
  - unfold count_incr. destruct s; lia.
Qed.

Lemma conf_inv_init raw : conf_inv (GRun "reader" (input_written raw) 1).
Proof. split; [split_and!; [done..| apply input_canonical] | split; [done | cbn; lia]]. Qed.

Lemma conf_inv_rtc c c' : rtc (gstep create_workflow) c c' → conf_inv c → conf_inv c'.
Proof. induction 1; eauto using conf_inv_step. Qed.

(** C15: every configuration a run reaches from [main]'s input respects
    the [AgentState] declaration (the three keys present, a non-empty
    history with ids 0, 1, ..., n-1) and the routing: the node about to
    run is the one [router] and the path maps choose for the node named
    by [sender] (the reader after the input, the extractor after the
    reader or the validator, the validator after the extractor), and
    [count] is below 3 while a node is to run and at most 3 when the run
    has ended. *)
Theorem reachable_typed (raw : string) (c : gconf) :
  rtc (gstep create_workflow) (GRun "reader" (input_written raw) 1) c →
  match c with
  | GRun node st n => state_typed st n ∧ node = node_after (sender st) ∧ get_count st < 3
  | GDone st n => state_typed st n ∧ get_count st <= 3
  | GFail _ => True
  end.
Proof. intros Hr. exact (conf_inv_rtc _ _ Hr (conf_inv_init raw)). Qed.

(** C16: the spec's state invariants, step by step: after every step of
    a run that has not failed, the history has exactly one more message,
    [sender] names the node that wrote it, and [count] has grown by one
    if that node is the extractor and is unchanged otherwise. *)
Theorem step_writes_sender (raw : string) (node : string) (st : AgentState) (n : nat) c' st' n' :
  rtc (gstep create_workflow) (GRun "reader" (input_written raw) 1) (GRun node st n) →
  gstep create_workflow (GRun node st n) c' → conf_state c' = Some (st', n') →
  length (messages st') = S (length (messages st)) ∧ sender st' = Some node ∧
  get_count st' = get_count st + (if decide (node = "extractor") then 1 else 0).
Proof.
  intros Hr Hstep Hst.
  destruct (conf_inv_rtc _ _ Hr (conf_inv_init raw)) as [(_ & _ & _ & Hc) _].
  destruct (gstep_effect _ _ _ _ _ _ Hc Hstep Hst) as (s & resp & -> & Hcont & Hs & Hcnt & _).
  split_and!; [| done |].
  - apply (f_equal length) in Hcont. unfold contents in Hcont.
    rewrite length_app, !length_fmap in Hcont. simpl in Hcont. lia.
  - unfold get_count at 1. rewrite Hcnt. by destruct s.
Qed.

(** Along further steps from a typed configuration the history only
    grows and the count never decreases. *)
Lemma rtc_history_grows c c' :
  rtc (gstep create_workflow) c c' → conf_inv c →
  ∀ st n st' n', conf_state c = Some (st, n) → conf_state c' = Some (st', n') →
  contents (messages st) `prefix_of` contents (messages st') ∧ get_count st <= get_count st'.
Proof.
  induction 1 as [c|c c1 c2 Hstep Hrest IH]; intros Hinv st n st' n' Hs Hs'.
  { rewrite Hs in Hs'. injection Hs' as <- <-. split; [done | lia]. }
  pose proof (conf_inv_step _ _ Hinv Hstep) as Hinv1.
  destruct c as [node st0 n0| |]; [|inversion Hstep..].
  injection Hs as <- <-. destruct Hinv as [(_ & _ & _ & Hc) _].
  destruct (conf_state c1) as [[st1 n1]|] eqn:Hs1.
  2: { destruct c1; try discriminate.
       inversion Hrest as [|? ? ? Hs2 ?]; subst; [discriminate | inversion Hs2]. }
  destruct (gstep_effect _ _ _ _ _ _ Hc Hstep Hs1) as (s & resp & _ & Hcont & _ & Hcnt & _).
  destruct (IH Hinv1 _ _ _ _ eq_refl Hs') as [Hp Hle].
  assert (get_count st1 = get_count st0 + count_incr s) by (unfold get_count at 1; by rewrite Hcnt).
  split; [|lia].
  etrans; [|exact Hp]. rewrite Hcont. by apply prefix_app_r.
Qed.

(** C30: from any configuration a run reaches, the history only grows
    (the reducer never replaces or removes a message in a run) and the
    count never decreases, whatever the model answers. *)
Theorem history_grows (raw : string) (c c' : gconf) st n st' n' :
  rtc (gstep create_workflow) (GRun "reader" (input_written raw) 1) c →
  rtc (gstep create_workflow) c c' →
  conf_state c = Some (st, n) → conf_state c' = Some (st', n') →
  contents (messages st) `prefix_of` contents (messages st') ∧ get_count st <= get_count st'.
Proof.
  intros Hr Hr'. apply (rtc_history_grows _ _ Hr').
  exact (conf_inv_rtc _ _ Hr (conf_inv_init raw)).
Qed.

End Invariants.

(** ** Witnesses *)

Lemma reachable_typed_witness :
  state_typed reader_done 2 ∧ "extractor" = node_after (sender reader_done) ∧ get_count reader_done < 3.
Proof. exact (reachable_typed "cv" (GRun "extractor" reader_done 2) (rtc_once _ _ first_step)). Defined.

Lemma step_writes_sender_witness :
  length (messages reader_done) = S (length (messages (input_written "cv"))) ∧
  sender reader_done = Some "reader" ∧
  get_count reader_done = get_count (input_written "cv") + (if decide ("reader" = "extractor") then 1 else 0).
Proof.
  exact (step_writes_sender "cv" "reader" (input_written "cv") 1 _ reader_done 2
           (rtc_refl _ _) first_step eq_refl).
Defined.

Lemma history_grows_witness :
  contents (messages (input_written "cv")) `prefix_of` contents (messages reader_done) ∧
  get_count (input_written "cv") <= get_count reader_done.
Proof.
  exact (history_grows "cv" (GRun "reader" (input_written "cv") 1) (GRun "extractor" reader_done 2)
           _ _ _ _ (rtc_refl _ _) (rtc_once _ _ first_step) eq_refl eq_refl).
Defined.
