(* ===== verification/Loaders.v ===== *)
(** * The document loader of [src/loaders.py]

    [parse_document(file_path)] takes the extension of the path with
    [os.path.splitext], lower-cases it, builds a [PyMuPDFLoader] for
    [".pdf"] or a [Docx2txtLoader] for [".docx"] and raises
    [ValueError("Unsupported file type: ...")] for anything else; the
    call [loader.load()] is wrapped in [try] and any exception it raises
    is re-raised as [Exception("Error loading document: ...")].  The two
    loader classes are the interface [DocumentLoaders]: a constructor
    that may raise (both classes check that the path is a file) and a
    [load] that returns the pages.  [os.path.splitext] is modelled after
    [posixpath.splitext] (the last dot after the last slash, leading dots
    of the file name skipped), [str.lower] as ASCII lower-casing. *)

From stdpp Require Import base list strings.
From Stdlib Require Import Ascii.
From S2P Require Import Prelude.
Open Scope string_scope.
Open Scope list_scope.

(** ** [os.path.splitext] *)

Definition is_char (c : ascii) (x : ascii) : bool := bool_decide (x = c).

(** [s.rfind(c)]: the last index of [c], [None] for Python's [-1]. *)
Fixpoint rfind (c : ascii) (l : list ascii) : option nat :=
  match l with
  | [] => None
  | x :: l' =>
      match rfind c l' with
      | Some i => Some (S i)
      | None => if is_char c x then Some 0 else None
      end
  end.

(** [genericpath._splitext(p, '/', None, '.')] on the characters of [p]:
    a dot after the last slash splits the path there, unless every
    character between the slash and that dot is a dot (the loop that
    skips the leading dots of a file name such as [".bashrc"]). *)
Definition splitext_chars (p : list ascii) : list ascii * list ascii :=
  let sepIndex := rfind "/"%char p in
  let filenameIndex := match sepIndex with Some i => S i | None => 0 end in
  match rfind "."%char p with
  | Some dotIndex =>
      if bool_decide (filenameIndex <= dotIndex) then
        if forallb (is_char "."%char) (take (dotIndex - filenameIndex) (drop filenameIndex p))
        then (p, [])
        else (take dotIndex p, drop dotIndex p)
      else (p, [])
  | None => (p, [])
  end.

Definition splitext (p : string) : string * string :=
  let '(root, ext) := splitext_chars (String.list_ascii_of_string p) in
  (String.string_of_list_ascii root, String.string_of_list_ascii ext).

(** ** [str.lower] *)

Definition ascii_lower (c : ascii) : ascii :=
  let n := nat_of_ascii c in
  if Nat.leb 65 n && Nat.leb n 90 then ascii_of_nat (n + 32) else c.

Fixpoint lower (s : string) : string :=
  match s with
  | EmptyString => EmptyString
  | String c s' => String (ascii_lower c) (lower s')
  end.

(** ** The loaders *)

(** A LangChain [Document]; only its [page_content] is read. *)
Record document := Document { page_content : string }.

Inductive loader_kind := PyMuPDFLoader | Docx2txtLoader.

(** The two loader classes: the constructor (which validates the path)
    and [load()]. *)
Class DocumentLoaders := {
  loader_init : loader_kind → string → result unit;
  loader_load : loader_kind → string → result (list document)
}.

Section ParseDocument.
Context `{DL : DocumentLoaders}.

Definition parse_document (file_path : string) : result (list document) :=
  let extension := lower (splitext file_path).2 in
  kind ← (if bool_decide (extension = ".pdf") then Ok PyMuPDFLoader
          else if bool_decide (extension = ".docx") then Ok Docx2txtLoader
          else raise (ValueError ("Unsupported file type: " +:+ extension)));
  loader_init kind file_path;;
  match loader_load kind file_path with
  | Ok docs => Ok docs
  | Err e => raise (LoadException ("Error loading document: " +:+ error_message e))
  end.

End ParseDocument.

(** ** Properties of [splitext] *)

Section SplitextProps.

Lemma rfind_Some c l i :
  rfind c l = Some i → l !! i = Some c ∧ c ∉ drop (S i) l.
Proof.
  revert i. induction l as [|x l IH]; intros i H; [discriminate|].
  simpl in H. destruct (rfind c l) as [j|] eqn:E.
  - injection H as <-. destruct (IH j eq_refl) as [H1 H2]. done.
  - unfold is_char in H. case_bool_decide; [|discriminate]. injection H as <-. subst x.
    split; [done|]. simpl. rewrite drop_0. intros Hin.
    revert E. clear -Hin. induction l as [|y l IHl]; [inversion Hin|].
    simpl. destruct (rfind c l); [discriminate|].
    unfold is_char. apply elem_of_cons in Hin as [->|Hin]; [by rewrite bool_decide_true|].
    case_bool_decide; [discriminate | auto].
Qed.

Lemma rfind_None c l : rfind c l = None → c ∉ l.
Proof.
  induction l as [|x l IH]; simpl; [intros _; apply not_elem_of_nil|].
  destruct (rfind c l); [discriminate|]. unfold is_char. case_bool_decide; [discriminate|].
  intros _ Hin. apply elem_of_cons in Hin as [->|Hin]; [done | by apply IH].
Qed.

Lemma splitext_chars_app p : (splitext_chars p).1 ++ (splitext_chars p).2 = p.
Proof.
  unfold splitext_chars.
  destruct (rfind "."%char p) as [d|]; [|apply app_nil_r].
  repeat case_match; simpl; rewrite ?app_nil_r, ?take_drop; done.
Qed.

Lemma splitext_chars_ext p :
  (splitext_chars p).2 = [] ∨
  ∃ rest, (splitext_chars p).2 = "."%char :: rest ∧ "."%char ∉ rest ∧ "/"%char ∉ rest.
Proof.
  unfold splitext_chars.
  destruct (rfind "."%char p) as [d|] eqn:Hd; [|by left].
  destruct (bool_decide _) eqn:Hle; [|by left]. apply bool_decide_eq_true in Hle.
  destruct (forallb _ _); [by left|]. right.
  destruct (rfind_Some _ _ _ Hd) as [Hpd Hnot].
  exists (drop (S d) p). rewrite (drop_S _ _ _ Hpd). split_and!; [done | done |].
  destruct (rfind "/"%char p) as [s|] eqn:Hs.
  - destruct (rfind_Some _ _ _ Hs) as [_ Hns]. intros Hin. apply Hns.
    replace (S d) with (S s + (S d - S s)) in Hin by lia.
    rewrite <- drop_drop in Hin. eapply elem_of_suffix; [exact Hin|].
    apply suffix_drop.
  - intros Hin. apply (rfind_None _ _ Hs). eapply elem_of_suffix; [exact Hin|].
    apply suffix_drop.
Qed.

Lemma string_of_list_ascii_app a b :
  String.string_of_list_ascii (a ++ b) = String.string_of_list_ascii a +:+ String.string_of_list_ascii b.
Proof. induction a as [|x a IH]; simpl; [done | by rewrite IH]. Qed.

(** [os.path.splitext] loses nothing: root and extension
    concatenate back to the path. *)
Theorem splitext_roundtrip (p : string) : (splitext p).1 +:+ (splitext p).2 = p.
Proof.
  unfold splitext. pose proof (splitext_chars_app (String.list_ascii_of_string p)) as H.
  destruct (splitext_chars _) as [r e]. simpl in *.
  by rewrite <- string_of_list_ascii_app, H, String.string_of_list_ascii_of_string.
Qed.

(** The extension is empty or a dot followed by characters that
    are neither dots nor slashes: it is taken after the last dot of the
    last path component. *)
Theorem splitext_ext_shape (p : string) :
  (splitext p).2 = "" ∨
  ∃ rest, (splitext p).2 = String "." rest ∧
    "."%char ∉ String.list_ascii_of_string rest ∧ "/"%char ∉ String.list_ascii_of_string rest.
Proof.
  unfold splitext. pose proof (splitext_chars_ext (String.list_ascii_of_string p)) as H.
  destruct (splitext_chars _) as [r e]. simpl in *.
  destruct H as [->|(rest & -> & H1 & H2)]; [by left|]. right.
  exists (String.string_of_list_ascii rest). simpl.
  by rewrite String.list_ascii_of_string_of_list_ascii.
Qed.

End SplitextProps.

(** ** Properties of [parse_document] *)

(** The loader the code picks for a (lower-cased) extension. *)
Definition ext_kind (ext : string) : option loader_kind :=
  if bool_decide (ext = ".pdf") then Some PyMuPDFLoader
  else if bool_decide (ext = ".docx") then Some Docx2txtLoader
  else None.

Section ParseProps.
Context `{DL : DocumentLoaders}.

Lemma parse_document_eq p :
  parse_document p =
    match ext_kind (lower (splitext p).2) with
    | None => raise (ValueError ("Unsupported file type: " +:+ lower (splitext p).2))
    | Some k =>
        loader_init k p;;
        match loader_load k p with
        | Ok docs => Ok docs
        | Err e => raise (LoadException ("Error loading document: " +:+ error_message e))
        end
    end.
Proof. unfold parse_document, ext_kind. by repeat case_bool_decide. Qed.

(** C26: [parse_document] returns pages exactly when the lower-cased
    extension is [".pdf"] or [".docx"], the matching loader accepts the
    path, and its [load()] returns those pages unchanged. *)
Theorem parse_document_ok (p : string) (docs : list document) :
  parse_document p = Ok docs ↔
  ∃ k, ext_kind (lower (splitext p).2) = Some k ∧ loader_init k p = Ok () ∧ loader_load k p = Ok docs.
Proof.
  rewrite parse_document_eq. destruct (ext_kind _) as [k|].
  - destruct (loader_init k p) as [[]|e] eqn:Hi; simpl.
    + destruct (loader_load k p) eqn:Hl; split.
      * intros [= ->]. eauto.
      * intros (k' & [= <-] & _ & Hl'). congruence.
      * discriminate.
      * intros (k' & [= <-] & _ & Hl'). congruence.
    + split; [discriminate | intros (k' & [= <-] & Hi' & _); congruence].
  - split; [discriminate | intros (? & ? & _); discriminate].
Qed.

(** C27: [parse_document] raises in three ways: [ValueError] naming the
    extension when it is neither [".pdf"] nor [".docx"]; the loader
    constructor's own exception, unwrapped (it is raised outside the
    [try]); and any exception of [load()], wrapped as
    ["Error loading document: " + str(e)]. *)
Theorem parse_document_err (p : string) (e : error) :
  parse_document p = Err e ↔
  (ext_kind (lower (splitext p).2) = None ∧
   e = ValueError ("Unsupported file type: " +:+ lower (splitext p).2)) ∨
  (∃ k, ext_kind (lower (splitext p).2) = Some k ∧
     (loader_init k p = Err e ∨
      (loader_init k p = Ok () ∧ ∃ e0, loader_load k p = Err e0 ∧
         e = LoadException ("Error loading document: " +:+ error_message e0)))).
Proof.
  rewrite parse_document_eq. destruct (ext_kind _) as [k|].
  - destruct (loader_init k p) as [[]|e'] eqn:Hi; simpl.
    + destruct (loader_load k p) as [docs|e0] eqn:Hl; split.
      * discriminate.
      * intros [(? & _)|(k' & [= <-] & [?|(_ & e1 & ? & _)])]; congruence.
      * intros [= <-]. right. exists k. split; [done|]. right. eauto.
      * intros [(? & _)|(k' & [= <-] & [?|(_ & e1 & He1 & ->)])]; [congruence..|].
        rewrite Hl in He1. by injection He1 as ->.
    + split.
      * intros [= ->]. right. eauto.
      * intros [(? & _)|(k' & [= <-] & [?|(? & _)])]; congruence.
  - split.
    + intros [= <-]. by left.
    + intros [(_ & ->)|(? & ? & _)]; [done | discriminate].
Qed.

End ParseProps.

(** Loaders that accept every path and return one page naming the
    loader. *)
Definition test_loaders : DocumentLoaders := {|
  loader_init := λ _ _, Ok ();
  loader_load := λ k _, Ok [Document (match k with PyMuPDFLoader => "pdf text" | Docx2txtLoader => "docx text" end)]
|}.

(** The extension test evaluated on concrete paths: the case of the
    extension does not matter, only the last extension counts, a hidden
    file named [".pdf"] has no extension, a dot in a directory name is
    not an extension, and [".doc"] is refused. *)
Example parse_document_examples :
  @parse_document test_loaders "uploaded/Resume.PDF" = Ok [Document "pdf text"] ∧
  @parse_document test_loaders "uploaded/cv.tar.docx" = Ok [Document "docx text"] ∧
  @parse_document test_loaders "uploaded/.pdf" = Err (ValueError "Unsupported file type: ") ∧
  @parse_document test_loaders "uploaded.v2/cv" = Err (ValueError "Unsupported file type: ") ∧
  @parse_document test_loaders "uploaded/cv.doc" = Err (ValueError "Unsupported file type: .doc").
Proof. split_and!; reflexivity. Qed.

(** Witnesses *)

Lemma parse_document_err_witness :
  (@parse_document test_loaders "cv.odt" = Err (ValueError "Unsupported file type: .odt")).
Proof.
  apply (@parse_document_err test_loaders). left. split; reflexivity.
Defined.
