(* ===== verification/App.v ===== *)
(** * The Streamlit application of [src/main.py]

    [main] makes sure the folder ["uploaded"] exists, shows a file
    uploader, rejects a file over [MAX_FILE_SIZE] (5 MB) with an error
    message, and on a click of "Start Processing" saves the file under
    ["uploaded/<name>"], extracts its text ([get_contents], through
    [parse_document]), shows a success banner, builds the workflow and
    displays one expander "<Sender> Agent Output" per chunk of
    [workflow.stream], then a final banner; an exception anywhere inside
    the [try] is shown as ["An error occurred: " + str(e)].

    The page is modelled by the list of what it displays ([ui_event]);
    the file system by the directories and files it holds ([fs]), with
    [os.path.exists], [os.makedirs], [os.path.join] (posixpath) and
    [open(path, "wb")] (path resolution through the ancestor
    directories, with Python's [OSError] messages) written out.  A
    [session] is the sequence of the script's runs that Streamlit makes,
    one per interaction.  [setup_page], the uploader and the
    button are events of the page; the spinner is not modelled.  [process]
    streams through the compiled graph with its checkpointer
    ([Checkpoint.stream_ck] on [compiled_workflow] and thread ["abc"]). *)

From stdpp Require Import base list strings gmap.
From Stdlib Require Import Ascii.
From S2P Require Import Prelude Messages Agents Workflow Checkpoint Loaders.
Open Scope string_scope.
Open Scope list_scope.

(** ** Constants and the page *)

Definition UPLOAD_FOLDER : string := "uploaded".
Definition MAX_FILE_SIZE : N := 5 * 1024 * 1024.

Inductive ui_event :=
| UIPageConfig (title layout : string)     (** [st.set_page_config(page_title=..., layout=...)] *)
| UITitle (title : string)                 (** [st.title(title)] *)
| UIUploader (label : string) (types : list string)
    (** [st.file_uploader(label, type=types)] *)
| UIButton (label : string)                (** [st.button(label)] *)
| UIError (msg : string)                   (** [st.error(msg)] *)
| UISuccess (msg : string)                 (** [st.success(msg)] *)
| UIExpander (label : string) (body : string).
    (** [with st.expander(label): st.write(body)] *)

(** Streamlit's [UploadedFile]: the client's file name, its size, its
    bytes. *)
Record uploaded_file := UploadedFile {
  file_name : string;
  file_size : N;
  file_bytes : string
}.

(** ** The file system *)

Record fs := FS { fs_dirs : gset string; fs_files : gmap string string }.

Definition path_exists (f : fs) (p : string) : bool :=
  bool_decide (p ∈ fs_dirs f) || bool_decide (is_Some (fs_files f !! p)).

Definition ensure_upload_folder (f : fs) : fs :=
  if path_exists f UPLOAD_FOLDER then f
  else {| fs_dirs := {[UPLOAD_FOLDER]} ∪ fs_dirs f; fs_files := fs_files f |}.

(** [posixpath.join(a, b)]. *)
Definition join (a b : string) : string :=
  if String.prefix "/" b then b
  else if bool_decide (a = "") || bool_decide (last (String.list_ascii_of_string a) = Some "/"%char)
  then a +:+ b
  else a +:+ "/" +:+ b.

Fixpoint rstrip_slashes (l : list ascii) : list ascii :=
  match l with
  | [] => []
  | c :: l' =>
      let r := rstrip_slashes l' in
      if bool_decide (r = []) && is_char "/"%char c then [] else c :: r
  end.

(** [posixpath.dirname(p)]: everything up to the last slash, trailing
    slashes removed unless the head is made of slashes only. *)
Definition dirname (p : string) : string :=
  let l := String.list_ascii_of_string p in
  let head := match rfind "/"%char l with Some i => take (S i) l | None => [] end in
  if forallb (is_char "/"%char) head then String.string_of_list_ascii head
  else String.string_of_list_ascii (rstrip_slashes head).

(** The directories [open] walks through to reach [p], outermost
    first: the successive [dirname]s of [p], down to the working
    directory [""] or the root ["/"], which always exist. *)
Fixpoint ancestors_aux (fuel : nat) (p : string) : list string :=
  match fuel with
  | 0 => []
  | S fuel' =>
      let d := dirname p in
      if bool_decide (d = "") || bool_decide (d = "/") || bool_decide (d = p) then []
      else ancestors_aux fuel' d ++ [d]
  end.

Definition ancestors (p : string) : list string := ancestors_aux (String.length p) p.

(** Resolving [path] through its ancestors: the first one that is a
    regular file raises [NotADirectoryError], the first missing one
    [FileNotFoundError]. *)
Fixpoint resolve_error (f : fs) (path : string) (ds : list string) : option error :=
  match ds with
  | [] => None
  | d :: ds' =>
      if bool_decide (is_Some (fs_files f !! d))
      then Some (OSError ("[Errno 20] Not a directory: '" +:+ path +:+ "'"))
      else if bool_decide (d ∈ fs_dirs f) then resolve_error f path ds'
      else Some (OSError ("[Errno 2] No such file or directory: '" +:+ path +:+ "'"))
  end.

(** [with open(path, "wb") as f: f.write(data)]: the path must resolve
    and must not name a directory; the file is created or truncated. *)
Definition write_file (f : fs) (path data : string) : result fs :=
  match resolve_error f path (ancestors path) with
  | Some e => Err e
  | None =>
      if bool_decide (path ∈ fs_dirs f) then raise (OSError ("[Errno 21] Is a directory: '" +:+ path +:+ "'"))
      else Ok {| fs_dirs := fs_dirs f; fs_files := <[path := data]> (fs_files f) |}
  end.

(** ** The functions of [main.py] *)

(** [setup_page]. *)
Definition setup_page : list ui_event :=
  [UIPageConfig "Resume Parsing System" "wide"; UITitle "Resume Parsing System"].

(** [validate_file_size]: the boolean and what it displays. *)
Definition validate_file_size (file : uploaded_file) : bool * list ui_event :=
  if bool_decide (file_size file <= MAX_FILE_SIZE)%N then (true, [])
  else (false, [UIError "File size exceeds the 5MB limit. Please upload a smaller file."]).

Definition save_uploaded_file (f : fs) (file : uploaded_file) : result (fs * string) :=
  let file_path := join UPLOAD_FOLDER (file_name file) in
  f' ← write_file f file_path (file_bytes file);
  Ok (f', file_path).

Section Main.
Context `{LM : LanguageModel} `{DL : DocumentLoaders}.

Definition get_contents (file_path : string) : result string :=
  documents ← parse_document file_path;
  Ok (foldl (λ data i, data +:+ page_content i) "" documents).

End Main.

(** [str.capitalize]: first character upper case, the rest lower case. *)
Definition ascii_upper (c : ascii) : ascii :=
  let n := nat_of_ascii c in
  if Nat.leb 97 n && Nat.leb n 122 then ascii_of_nat (n - 32) else c.

Definition capitalize (s : string) : string :=
  match s with
  | EmptyString => EmptyString
  | String c s' => String (ascii_upper c) (lower s')
  end.

(** One chunk of the stream displayed: [output['sender']] and
    [output['messages'][0]]. *)
Definition display_chunk (c : chunk) : result ui_event :=
  match upd_messages c.2 with
  | [] => raise (IndexError "list index out of range")
  | m :: _ => Ok (UIExpander (capitalize (upd_sender c.2) +:+ " Agent Output") (msg_like_content m))
  end.

(** The [for s in workflow.stream(...)] loop: what it shows before it
    finishes or raises. *)
Fixpoint display_chunks (cs : list chunk) : list ui_event * option error :=
  match cs with
  | [] => ([], None)
  | c :: cs' =>
      match display_chunk c with
      | Err e => ([], Some e)
      | Ok ev => let '(evs, r) := display_chunks cs' in (ev :: evs, r)
      end
  end.

Definition report (e : error) : ui_event := UIError ("An error occurred: " +:+ error_message e).

Section Main2.
Context `{LM : LanguageModel} `{DL : DocumentLoaders}.

(** The body of the [try] block, with its [except]. *)
Definition process (f : fs) (file : uploaded_file) : fs * list ui_event :=
  match save_uploaded_file f file with
  | Err e => (f, [report e])
  | Ok (f', file_path) =>
      match get_contents file_path with
      | Err e => (f', [report e])
      | Ok file_content =>
          let '(cs, r, _) := stream_ck compiled_workflow main_config (initial_state file_content) in
          let '(evs, derr) := display_chunks cs in
          (f', [UISuccess "Successfully processed uploaded resume."] ++ evs ++
               match derr, r with
               | Some e, _ => [report e]
               | None, Err e => [report e]
               | None, Ok _ => [UISuccess "Resume processing complete!"]
               end)
      end
  end.

(** One run of the script: the page header, the upload folder, the
    uploader and the file it returns (if any), the button and whether it
    was clicked. *)
Definition main (f : fs) (upload : option uploaded_file) (clicked : bool) : fs * list ui_event :=
  let evs0 := setup_page ++ [UIUploader "Choose a resume file" ["pdf"; "docx"]] in
  let f1 := ensure_upload_folder f in
  match upload with
  | None => (f1, evs0)
  | Some file =>
      let '(ok, evs) := validate_file_size file in
      if ok then
        let evs1 := evs0 ++ [UIButton "Start Processing"] in
        if clicked then let '(f2, evs2) := process f1 file in (f2, evs1 ++ evs2)
        else (f1, evs1)
      else (f1, evs0 ++ evs)
  end.

(** [if __name__ == "__main__": main()]: Streamlit runs the script again
    on every interaction.  A session is the sequence of those runs, each
    on the file system the previous one left, with that run's upload and
    button state; every run builds its own graph, so nothing else is
    carried from one run to the next. *)
Fixpoint session (f : fs) (runs : list (option uploaded_file * bool)) : fs * list (list ui_event) :=
  match runs with
  | [] => (f, [])
  | (upload, clicked) :: runs' =>
      let '(f1, evs) := main f upload clicked in
      let '(f2, pages) := session f1 runs' in
      (f2, evs :: pages)
  end.

End Main2.

(** One file system extends another: no directory and no file is gone. *)
Definition fs_le (f f' : fs) : Prop :=
  fs_dirs f ⊆ fs_dirs f' ∧ dom (fs_files f) ⊆ dom (fs_files f').

#[global] Instance fs_le_preorder : PreOrder fs_le.
Proof. split; [intros f; split; set_solver | intros f1 f2 f3 [? ?] [? ?]; split; set_solver]. Qed.

(** When no regular file is named ["uploaded"], [ensure_upload_folder]
    leaves a directory of that name: [os.path.exists] is then true only
    for the directory. *)
Lemma ensure_dir f : fs_files f !! UPLOAD_FOLDER = None → UPLOAD_FOLDER ∈ fs_dirs (ensure_upload_folder f).
Proof.
  intros Hfile. unfold ensure_upload_folder, path_exists. rewrite Hfile.
  destruct (bool_decide (UPLOAD_FOLDER ∈ fs_dirs f)) eqn:E; simpl.
  - by apply bool_decide_eq_true in E.
  - set_solver.
Qed.

(** ** Properties *)

Section AppProps.

(** C22: a file is accepted exactly when its size is at most
    5 * 1024 * 1024 = 5242880 bytes (a file of exactly 5 MiB passes). *)
Theorem validate_file_size_bound (file : uploaded_file) :
  (validate_file_size file).1 = true ↔ (file_size file <= 5242880)%N.
Proof.
  unfold validate_file_size, MAX_FILE_SIZE.
  case_bool_decide; simpl; split; intros; try done; lia.
Qed.

Lemma join_upload_relative (name : string) :
  String.prefix "/" name = false → join UPLOAD_FOLDER name = "uploaded/" +:+ name.
Proof. intros H. unfold join. by rewrite H. Qed.

(** The saved file's path is ["uploaded/" + name], except that a
    name starting with ["/"] is taken as is: [os.path.join] discards the
    upload folder and the file is written outside it. *)
Theorem join_upload_folder (name : string) :
  join UPLOAD_FOLDER name = if String.prefix "/" name then name else "uploaded/" +:+ name.
Proof. unfold join. by destruct (String.prefix "/" name). Qed.

Lemma foldl_page_contents acc (docs : list document) :
  foldl (λ data i, data +:+ page_content i) acc docs =
  acc +:+ foldr String.append "" (page_content <$> docs).
Proof.
  revert acc. induction docs as [|d docs IH]; intros acc; simpl.
  - by rewrite string_app_nil_r.
  - by rewrite IH, string_app_assoc.
Qed.

(** C25: the accumulation loop of [get_contents] computes the
    concatenation of the pages' contents, in order; a failure of
    [parse_document] is its failure. *)
Theorem get_contents_join `{DL : DocumentLoaders} (p : string) :
  get_contents p = (λ docs, foldr String.append "" (page_content <$> docs)) <$> parse_document p.
Proof.
  unfold get_contents. destruct (parse_document p) as [docs|e]; [|done].
  simpl. by rewrite foldl_page_contents.
Qed.

Lemma rfind_notin c l : c ∉ l → rfind c l = None.
Proof.
  induction l as [|x l IH]; intros Hn; [done|]. simpl.
  rewrite IH by (intros H; apply Hn; by right). unfold is_char.
  rewrite bool_decide_false; [done|]. intros ->. apply Hn. by left.
Qed.

Lemma rfind_app_notin c l1 l2 : c ∉ l2 → rfind c (l1 ++ l2) = rfind c l1.
Proof.
  intros Hn. induction l1 as [|x l1 IH]; simpl; [by apply rfind_notin|]. by rewrite IH.
Qed.

Lemma list_ascii_of_string_app a b :
  String.list_ascii_of_string (a +:+ b) = String.list_ascii_of_string a ++ String.list_ascii_of_string b.
Proof. induction a as [|x a IH]; [done|]. rewrite string_app_cons. simpl. by rewrite IH. Qed.

Lemma dirname_upload (name : string) :
  "/"%char ∉ String.list_ascii_of_string name → dirname ("uploaded/" +:+ name) = UPLOAD_FOLDER.
Proof.
  intros Hn. unfold dirname. cbv zeta. rewrite list_ascii_of_string_app, rfind_app_notin by done.
  change (rfind "/"%char (String.list_ascii_of_string "uploaded/")) with (Some 8).
  cbv iota beta. change 9 with (length (String.list_ascii_of_string "uploaded/")). rewrite take_app_length.
  reflexivity.
Qed.

Lemma prefix_slash_false (name : string) :
  "/"%char ∉ String.list_ascii_of_string name → String.prefix "/" name = false.
Proof.
  destruct name as [|c name]; [done|]. intros Hn. cbn [String.list_ascii_of_string] in Hn.
  change (String.prefix "/" (String c name))
    with (if ascii_dec "/"%char c then String.prefix "" name else false).
  destruct (ascii_dec "/"%char c) as [<-|Hne]; [set_solver | done].
Qed.




Lemma upload_path_ne (name : string) : "uploaded/" +:+ name ≠ UPLOAD_FOLDER.
Proof.
  intros E. rewrite !string_app_cons, string_app_nil_l in E. unfold UPLOAD_FOLDER in E.
  congruence.
Qed.

(** A name without ["/"] saved in the upload folder has the folder as
    its only ancestor. *)
Lemma ancestors_upload (name : string) :
  "/"%char ∉ String.list_ascii_of_string name → ancestors ("uploaded/" +:+ name) = [UPLOAD_FOLDER].
Proof.
  intros Hn. unfold ancestors.
  assert (∃ k, String.length ("uploaded/" +:+ name) = S (S k)) as [k ->]
    by (rewrite !string_app_cons, string_app_nil_l; simpl; eauto).
  cbn [ancestors_aux]. rewrite dirname_upload by done.
  rewrite (bool_decide_eq_false_2 (UPLOAD_FOLDER = "uploaded/" +:+ name))
    by (intros E; by apply (upload_path_ne name)).
  reflexivity.
Qed.

(** C23: when no regular file is called ["uploaded"] and no directory
    has the target path ["uploaded/" + name], once
    [ensure_upload_folder] has run a file whose name holds no ["/"] is
    saved: the result is the path ["uploaded/" + name], the file system
    gains that file with the uploaded bytes, every other file and every
    directory is untouched.  (Without the first condition the save
    fails: [upload_folder_is_file].) *)
Theorem save_after_ensure (f : fs) (file : uploaded_file) :
  fs_files f !! UPLOAD_FOLDER = None →
  "/"%char ∉ String.list_ascii_of_string (file_name file) →
  ("uploaded/" +:+ file_name file) ∉ fs_dirs f →
  save_uploaded_file (ensure_upload_folder f) file =
    Ok ({| fs_dirs := fs_dirs (ensure_upload_folder f);
           fs_files := <[("uploaded/" +:+ file_name file) := file_bytes file]> (fs_files f) |},
        "uploaded/" +:+ file_name file).
Proof.
  intros Hfile Hslash Hdir.
  pose proof (ensure_dir f Hfile) as Hup.
  assert (Hfiles : fs_files (ensure_upload_folder f) = fs_files f).
  { unfold ensure_upload_folder. by destruct (path_exists f UPLOAD_FOLDER). }
  pose proof (upload_path_ne (file_name file)) as Hne.
  assert (Hdir' : "uploaded/" +:+ file_name file ∉ fs_dirs (ensure_upload_folder f)).
  { unfold ensure_upload_folder. destruct (path_exists f UPLOAD_FOLDER); [done|]. set_solver. }
  unfold save_uploaded_file. rewrite join_upload_relative by (by apply prefix_slash_false).
  unfold write_file. rewrite ancestors_upload by done. cbn [resolve_error].
  rewrite Hfiles, Hfile, bool_decide_false by (intros [? ?]; discriminate).
  rewrite (bool_decide_true (UPLOAD_FOLDER ∈ _)), bool_decide_false by done.
  done.
Qed.

End AppProps.

(** ** What the page shows *)

(** The expander a chunk is displayed as. *)
Definition chunk_event (c : chunk) : ui_event :=
  UIExpander (capitalize c.1 +:+ " Agent Output")
             (default "" (msg_like_content <$> head (upd_messages c.2))).

Fixpoint expander_labels (evs : list ui_event) : list string :=
  match evs with
  | [] => []
  | UIExpander l _ :: evs' => l :: expander_labels evs'
  | _ :: evs' => expander_labels evs'
  end.

Definition agent_labels : list string :=
  ["Reader Agent Output"; "Extractor Agent Output"; "Validator Agent Output";
   "Extractor Agent Output"; "Validator Agent Output"; "Extractor Agent Output"].

Section Display.
Context `{LM : LanguageModel} `{DL : DocumentLoaders}.

Lemma display_chunks_ok cs : Forall chunk_ok cs → display_chunks cs = (chunk_event <$> cs, None).
Proof.
  induction 1 as [|[name u] cs (s & resp & H1 & H2 & H3) _ IH]; [done|].
  cbn [fst snd] in H1, H2, H3. subst name.
  cbn [display_chunks]. unfold display_chunk at 1. cbn [snd]. rewrite H3, IH.
  rewrite fmap_cons. unfold chunk_event. cbn [fst snd]. rewrite ?H2, ?H3. done.
Qed.

(** C20: once the file is saved and its text extracted, the page shows
    the success banner first, then one expander per chunk of the stream,
    in order, labelled with the capitalised sender and holding the
    stage's answer, and last the completion banner or, if the stream
    raised, the error: the outputs of the stages that ran before a
    failing model call stay on the page, under a banner that already said
    "Successfully processed". *)
Theorem process_events (f f' : fs) (file : uploaded_file) (path content : string) :
  save_uploaded_file f file = Ok (f', path) → get_contents path = Ok content →
  process f file =
    (f', [UISuccess "Successfully processed uploaded resume."] ++
         (chunk_event <$> (stream create_workflow (initial_state content)).1) ++
         [match (stream create_workflow (initial_state content)).2 with
          | Ok _ => UISuccess "Resume processing complete!"
          | Err e => report e
          end]).
Proof.
  intros Hsave Hget. unfold process. rewrite Hsave, Hget.
  pose proof (stream_ck_fresh compiled_workflow main_config (initial_state content) (ck_get_new _)) as Hfresh.
  change (app_graph compiled_workflow) with create_workflow in Hfresh.
  pose proof (stream_chunks content) as Hok.
  destruct (stream_ck _ _ _) as [[cs r] app']. cbn [fst] in Hfresh. rewrite <- Hfresh in Hok |- *.
  cbn [fst snd] in Hok |- *. rewrite display_chunks_ok by done. by destruct r.
Qed.

Lemma expander_labels_app a b :
  expander_labels (a ++ b) = expander_labels a ++ expander_labels b.
Proof. induction a as [|[] a IH]; simpl; by rewrite ?IH. Qed.

Lemma expander_labels_chunks cs :
  expander_labels (chunk_event <$> cs) = (λ n, capitalize n +:+ " Agent Output") <$> (fst <$> cs).
Proof.
  induction cs as [|c cs IH]; [done|]. rewrite !fmap_cons.
  unfold chunk_event at 1. cbn [expander_labels]. by rewrite IH.
Qed.

Lemma process_labels (f : fs) (file : uploaded_file) :
  expander_labels (process f file).2 `prefix_of` agent_labels.
Proof.
  unfold process. destruct (save_uploaded_file _ file) as [[f' path]|e]; [|apply prefix_nil].
  destruct (get_contents path) as [content|e]; [|apply prefix_nil].
  pose proof (stream_ck_fresh compiled_workflow main_config (initial_state content) (ck_get_new _)) as Hfresh.
  change (app_graph compiled_workflow) with create_workflow in Hfresh.
  pose proof (stream_chunks content) as Hok.
  pose proof (exec_prefix recursion_limit Reader _ _ (input_canonical content)) as Hpre.
  destruct (stream_ck _ _ _) as [[cs0 r0] app']. cbn [fst] in Hfresh.
  rewrite stream_unfold in Hok, Hfresh.
  destruct (exec _ _ _ _ _) as [cs r]. injection Hfresh as -> ->. simpl in Hok, Hpre.
  rewrite display_chunks_ok by done. cbn [snd].
  rewrite !expander_labels_app, expander_labels_chunks.
  assert (Htail : ∀ r' : result AgentState, expander_labels
            (match r' with Ok _ => [UISuccess "Resume processing complete!"] | Err e => [report e] end) = [])
    by (by intros []).
  rewrite Htail, app_nil_r. simpl.
  change agent_labels with ((λ n, capitalize n +:+ " Agent Output") <$> full_schedule).
  by apply prefix_fmap.
Qed.

(** C19: whatever the model, the loaders, the file system, the upload
    and the button, the expanders the page shows are labelled, in order,
    with a prefix of Reader, Extractor, Validator, Extractor, Validator,
    Extractor "Agent Output". *)
Theorem main_labels (f : fs) (upload : option uploaded_file) (clicked : bool) :
  expander_labels (main f upload clicked).2 `prefix_of` agent_labels.
Proof.
  unfold main. destruct upload as [file|]; [|exists agent_labels; reflexivity].
  destruct (validate_file_size file) as [[] evs] eqn:Hv; cbn [fst snd].
  2: { unfold validate_file_size in Hv. case_bool_decide; simplify_eq; exists agent_labels; reflexivity. }
  destruct clicked; [|exists agent_labels; reflexivity].
  pose proof (process_labels (ensure_upload_folder f) file) as H.
  destruct (process _ file) as [f2 evs2]. cbn [snd]. rewrite expander_labels_app. exact H.
Qed.

(** C21: a file over 5242880 bytes is refused before anything else
    happens: the page shows the size error only, no file is written, no
    loader and no model is called, whether or not the button is clicked. *)
Theorem main_rejects_large (f : fs) (file : uploaded_file) (clicked : bool) :
  (5242880 < file_size file)%N →
  main f (Some file) clicked =
    (ensure_upload_folder f,
     setup_page ++ [UIUploader "Choose a resume file" ["pdf"; "docx"];
                    UIError "File size exceeds the 5MB limit. Please upload a smaller file."]).
Proof.
  intros Hbig. unfold main, validate_file_size, MAX_FILE_SIZE.
  rewrite bool_decide_false by lia. done.
Qed.

End Display.

(** C33: a file whose extension, lower-cased, is neither [.pdf] nor
    [.docx] is first saved and then refused: the page shows only
    "An error occurred: Unsupported file type: <ext>", without the
    success banner and without any model call, and the saved file stays
    on disk. *)
Theorem process_unsupported `{LM : LanguageModel} `{DL : DocumentLoaders}
    (f f' : fs) (file : uploaded_file) (path : string) :
  save_uploaded_file f file = Ok (f', path) →
  ext_kind (lower (splitext path).2) = None →
  process f file =
    (f', [UIError ("An error occurred: Unsupported file type: " +:+ lower (splitext path).2)]).
Proof.
  intros Hs Hk. unfold process. rewrite Hs. unfold get_contents.
  rewrite parse_document_eq, Hk. cbn. unfold report. cbn [error_message]. by rewrite <- string_app_assoc.
Qed.

(** C24: [ensure_upload_folder] tests [os.path.exists], not
    [os.path.isdir]: when a regular file named ["uploaded"] is in the
    working directory the folder is never created and every save fails.
    A click on a valid upload then shows, after the page header and the
    widgets, only "An error occurred: [Errno 20] Not a directory:
    'uploaded/<name>'" (no success banner, no model call), and the file
    system is unchanged. *)
Theorem upload_folder_is_file `{LM : LanguageModel} `{DL : DocumentLoaders}
    (f : fs) (file : uploaded_file) :
  is_Some (fs_files f !! UPLOAD_FOLDER) →
  "/"%char ∉ String.list_ascii_of_string (file_name file) →
  (file_size file <= 5242880)%N →
  main f (Some file) true =
    (f, setup_page ++ [UIUploader "Choose a resume file" ["pdf"; "docx"]; UIButton "Start Processing";
         UIError ("An error occurred: [Errno 20] Not a directory: 'uploaded/" +:+ file_name file +:+ "'")]).
Proof.
  intros Hfile Hslash Hsize.
  assert (Hens : ensure_upload_folder f = f).
  { unfold ensure_upload_folder, path_exists.
    rewrite (bool_decide_true (is_Some _)) by done. by rewrite orb_true_r. }
  unfold main. rewrite Hens. unfold validate_file_size, MAX_FILE_SIZE.
  rewrite bool_decide_true by lia. cbv iota beta.
  unfold process, save_uploaded_file. rewrite join_upload_relative by (by apply prefix_slash_false).
  unfold write_file. rewrite ancestors_upload by done. cbn [resolve_error].
  rewrite bool_decide_true by done. cbn. unfold report. cbn [error_message].
  by rewrite !string_app_assoc, !string_app_cons, !string_app_nil_l.
Qed.

(** ** Sessions *)

Lemma ensure_le f : fs_le f (ensure_upload_folder f).
Proof. unfold ensure_upload_folder. destruct (path_exists f UPLOAD_FOLDER); [done|]. split; set_solver. Qed.

Lemma write_file_le f p d f' : write_file f p d = Ok f' → fs_le f f'.
Proof.
  unfold write_file. destruct (resolve_error _ _ _); [discriminate|].
  case_bool_decide; [discriminate|]. intros [= <-]. split; cbn; [done|].
  rewrite dom_insert_L. set_solver.
Qed.

Section SessionProps.
Context `{LM : LanguageModel} `{DL : DocumentLoaders}.

Lemma process_le f file : fs_le f (process f file).1.
Proof.
  unfold process. destruct (save_uploaded_file f file) as [[f' path]|e] eqn:Hs; [|done].
  unfold save_uploaded_file in Hs. destruct (write_file _ _ _) as [f1|] eqn:Hw; [|discriminate].
  injection Hs as <- _. apply write_file_le in Hw.
  destruct (get_contents path); [|done]. by destruct (stream_ck _ _ _) as [[? ?] ?], (display_chunks _).
Qed.

Lemma main_le f upload clicked :
  fs_le (ensure_upload_folder f) (main f upload clicked).1.
Proof.
  unfold main. destruct upload as [file|]; [|done].
  destruct (validate_file_size file) as [[] evs]; [|done].
  destruct clicked; [|done].
  pose proof (process_le (ensure_upload_folder f) file). by destruct (process _ _).
Qed.

(** C34: over a whole session, however many uploads and clicks and
    whatever they do, no directory and no file of the working tree is
    ever removed (uploads are kept on disk, also those that were refused
    or failed to process); and when the session starts with no regular
    file named ["uploaded"], the directory ["uploaded"] exists from the
    first run on, whether or not anything was uploaded. *)
Theorem session_keeps_files (f : fs) (runs : list (option uploaded_file * bool)) :
  fs_le f (session f runs).1 ∧
  (fs_files f !! UPLOAD_FOLDER = None → runs ≠ [] → UPLOAD_FOLDER ∈ fs_dirs (session f runs).1).
Proof.
  revert f. induction runs as [|[upload clicked] runs IH]; intros f; [split; [done | done]|].
  cbn [session]. pose proof (main_le f upload clicked) as Hm.
  destruct (main f upload clicked) as [f1 evs]. destruct (IH f1) as [Hle _].
  destruct (session f1 runs) as [f2 pages]. cbn [fst] in *. split.
  - by rewrite (ensure_le f), Hm.
  - intros Hfile _. destruct Hm as [Hd _], Hle as [Hd' _].
    pose proof (ensure_dir f Hfile). set_solver.
Qed.

End SessionProps.

(** ** Witnesses and a whole run *)

Definition empty_fs : fs := FS ∅ ∅.
Definition cv_file : uploaded_file := UploadedFile "cv.pdf" 100 "%PDF-1.7".

Lemma save_after_ensure_witness :
  save_uploaded_file (ensure_upload_folder empty_fs) cv_file =
    Ok ({| fs_dirs := fs_dirs (ensure_upload_folder empty_fs);
           fs_files := <[("uploaded/" +:+ "cv.pdf") := "%PDF-1.7"]> (fs_files empty_fs) |},
        "uploaded/" +:+ "cv.pdf").
Proof.
  apply (save_after_ensure empty_fs cv_file).
  - reflexivity.
  - apply (bool_decide_unpack _). reflexivity.
  - apply (bool_decide_unpack _). reflexivity.
Defined.

Lemma process_events_witness :
  (@process never_yes_model test_loaders (ensure_upload_folder empty_fs) cv_file).2 =
    [UISuccess "Successfully processed uploaded resume."] ++
    (chunk_event <$> (@stream never_yes_model create_workflow (initial_state "pdf text")).1) ++
    [UISuccess "Resume processing complete!"].
Proof.
  rewrite (@process_events never_yes_model test_loaders _
             (FS {[UPLOAD_FOLDER]} {["uploaded/cv.pdf" := "%PDF-1.7"]}) _ "uploaded/cv.pdf" "pdf text");
    reflexivity.
Defined.

Lemma main_rejects_large_witness :
  @main never_yes_model test_loaders empty_fs (Some (UploadedFile "cv.pdf" 6000000 "")) true =
    (ensure_upload_folder empty_fs,
     setup_page ++ [UIUploader "Choose a resume file" ["pdf"; "docx"];
                    UIError "File size exceeds the 5MB limit. Please upload a smaller file."]).
Proof. apply main_rejects_large. simpl. lia. Defined.

(** A whole run of the page with a model that keeps asking for
    corrections, evaluated: the success banner, the six agent outputs in
    the order reader, extractor, validator, extractor, validator,
    extractor, and the completion banner; the file is saved under
    ["uploaded/cv.pdf"]. *)
Example main_full_run :
  @main never_yes_model test_loaders empty_fs (Some cv_file) true =
    (FS {[UPLOAD_FOLDER]} {["uploaded/cv.pdf" := "%PDF-1.7"]},
     [UIPageConfig "Resume Parsing System" "wide"; UITitle "Resume Parsing System";
      UIUploader "Choose a resume file" ["pdf"; "docx"]; UIButton "Start Processing";
      UISuccess "Successfully processed uploaded resume.";
      UIExpander "Reader Agent Output" "- Missing phone number";
      UIExpander "Extractor Agent Output" "- Missing phone number";
      UIExpander "Validator Agent Output" "- Missing phone number";
      UIExpander "Extractor Agent Output" "- Missing phone number";
      UIExpander "Validator Agent Output" "- Missing phone number";
      UIExpander "Extractor Agent Output" "- Missing phone number";
      UISuccess "Resume processing complete!"]).
Proof. vm_compute. reflexivity. Qed.

Lemma process_unsupported_witness :
  @process never_yes_model test_loaders (ensure_upload_folder empty_fs) (UploadedFile "cv.txt" 10 "text") =
    (FS {[UPLOAD_FOLDER]} {["uploaded/cv.txt" := "text"]},
     [UIError ("An error occurred: Unsupported file type: " +:+ ".txt")]).
Proof.
  apply (@process_unsupported never_yes_model test_loaders _ _ _ "uploaded/cv.txt");
    vm_compute; reflexivity.
Defined.

Lemma upload_folder_is_file_witness :
  @main never_yes_model test_loaders (FS ∅ {[UPLOAD_FOLDER := "notes"]}) (Some cv_file) true =
    (FS ∅ {[UPLOAD_FOLDER := "notes"]},
     setup_page ++ [UIUploader "Choose a resume file" ["pdf"; "docx"]; UIButton "Start Processing";
       UIError ("An error occurred: [Errno 20] Not a directory: 'uploaded/" +:+ "cv.pdf" +:+ "'")]).
Proof.
  apply (@upload_folder_is_file never_yes_model test_loaders _ cv_file).
  - exists "notes". reflexivity.
  - apply (bool_decide_unpack _). reflexivity.
  - simpl. lia.
Defined.

Lemma session_keeps_files_witness :
  UPLOAD_FOLDER ∈ fs_dirs (@session never_yes_model test_loaders empty_fs [(None, false)]).1.
Proof.
  apply (proj2 (@session_keeps_files never_yes_model test_loaders empty_fs [(None, false)]));
    [reflexivity | discriminate].
Defined.

